(** * The map dashboard of [static/js/app.js]: CSV records, item placement,
      expiry classification, colour coding and the supply request form.

    The program is browser JavaScript.  Its values are embedded as follows.

    - A JavaScript Number is an IEEE 754 binary64 value: Rocq's primitive
      [float], whose operations are the same correctly rounded operations.
    - A JavaScript string is a sequence of code units; the development keeps
      the code units below 256, so a string is a Rocq [string].
    - The values a CSV record can hold are strings and [undefined].
    - An object used as a record is the finite map of its own properties.
    - What the program reads from its host (the clock, the date parser, the
      size of the container) is an explicit argument. *)

From Stdlib Require Import ZArith Lia Floats Uint63 String Ascii List Bool.
From stdpp Require Import gmap strings pretty.
Import ListNotations.

Local Open Scope string_scope.

(** ** Strings *)

Module JSString.

Definition LF : ascii := "010"%char.
Definition quote : ascii := "034"%char.
Definition backslash : ascii := "092"%char.

(** White space and line terminators of ECMAScript among the code units
    below 256: TAB, LF, VT, FF, CR, SP and NBSP. *)
Definition is_ws (c : ascii) : bool :=
  match c with
  | "009" | "010" | "011" | "012" | "013" | " " | "160" => true
  | _ => false
  end%char.

Fixpoint trimStart (s : string) : string :=
  match s with
  | String c r => if is_ws c then trimStart r else s
  | EmptyString => EmptyString
  end.

Definition is_empty (s : string) : bool :=
  match s with EmptyString => true | _ => false end.

Fixpoint trimEnd (s : string) : string :=
  match s with
  | String c r =>
      let r' := trimEnd r in
      if is_ws c && is_empty r' then EmptyString else String c r'
  | EmptyString => EmptyString
  end.

(** [String.prototype.trim]. *)
Definition trim (s : string) : string := trimEnd (trimStart s).

(** [String.prototype.split] for a separator of one code unit, the only
    kind the program passes (a line feed, a comma, a full stop).  The
    result is never empty: a string without separator is its own single
    piece. *)
Fixpoint split (sep : ascii) (s : string) : list string :=
  match s with
  | EmptyString => [EmptyString]
  | String c r =>
      if Ascii.eqb c sep then EmptyString :: split sep r
      else match split sep r with
           | piece :: pieces => String c piece :: pieces
           | [] => [String c EmptyString]
           end
  end.

(** A string all of whose code units are white space (the empty one too). *)
Fixpoint blank (s : string) : bool :=
  match s with
  | String c r => is_ws c && blank r
  | EmptyString => true
  end.

Fixpoint has (c : ascii) (s : string) : bool :=
  match s with
  | String d r => Ascii.eqb d c || has c r
  | EmptyString => false
  end.

Fixpoint join (sep : ascii) (l : list string) : string :=
  match l with
  | [] => EmptyString
  | [x] => x
  | x :: rest => x ++ String sep (join sep rest)
  end.

End JSString.
Import JSString.

(** ** Values and records *)

Inductive value : Type :=
| undefined
| str (s : string).

Definition value_eqb (v w : value) : bool :=
  match v, w with
  | undefined, undefined => true
  | str a, str b => String.eqb a b
  | _, _ => false
  end.

(** [ToBoolean]: [undefined] and the empty string are falsy. *)
Definition truthy (v : value) : bool :=
  match v with
  | undefined => false
  | str s => negb (is_empty s)
  end.

(** [ToString] on the two kinds of value. *)
Definition ToString (v : value) : string :=
  match v with
  | undefined => "undefined"
  | str s => s
  end.

(** A record: the own properties of a plain object. *)
Abbreviation obj := (gmap string value).

(** [o[k] = v] on a plain object.  The key [__proto__] is the accessor of
    [Object.prototype]; its setter ignores a value that is not an object, so
    the assignment creates no own property. *)
Definition obj_set (o : obj) (k : string) (v : value) : obj :=
  if String.eqb k "__proto__" then o else <[k := v]> o.

(** [o.k] for a key that [Object.prototype] does not define: the own
    property, or [undefined]. *)
Definition obj_get (o : obj) (k : string) : value :=
  default undefined (o !! k).

(** [a[i]] on an array of strings: [undefined] out of range. *)
Definition array_get (a : list string) (i : nat) : value :=
  match a !! i with
  | Some s => str s
  | None => undefined
  end.

(** ** Numbers *)

Module Number.

Local Open Scope float_scope.

(** The Number of an integer below [2^63] in absolute value. *)
Definition of_Z (z : Z) : float :=
  match z with
  | Z0 => 0
  | Zpos _ => of_uint63 (Uint63.of_Z z)
  | Zneg p => - of_uint63 (Uint63.of_Z (Zpos p))
  end.

(** The Number nearest to [n / d] (ties to even), for [n >= 0] and [d > 0]:
    the quotient with the position of the remainder, then the rounding of
    the binary64 format. *)
Definition of_ratio (neg : bool) (n d : Z) : float :=
  match n with
  | Z0 => if neg then neg_zero else 0
  | _ =>
      let '(q, e, l) := SFdiv_core_binary prec emax n 0 d 0 in
      SF2Prim (binary_round_aux prec emax neg q e l)
  end.

(** [Math.floor]. *)
Definition floor (x : float) : float :=
  match Prim2SF x with
  | S754_finite s m e =>
      if (0 <=? e)%Z then x
      else of_Z (Z.shiftr (cond_Zopp s (Zpos m)) (- e))
  | _ => x
  end.

(** The exact integer value of an integral finite Number, if it is one. *)
Definition to_integer (x : float) : option Z :=
  match Prim2SF x with
  | S754_zero _ => Some 0%Z
  | S754_finite s m e =>
      if (0 <=? e)%Z then Some (cond_Zopp s (Z.shiftl (Zpos m) e))
      else if (Z.land (Zpos m) (Z.ones (- e)) =? 0)%Z
           then Some (cond_Zopp s (Z.shiftr (Zpos m) (- e)))
           else None
  | _ => None
  end.

End Number.

(** ** [parseFloat] *)

Module ParseFloat.

Local Open Scope Z_scope.

Definition digit (c : ascii) : option Z :=
  let n := Z.of_N (N_of_ascii c) in
  if (48 <=? n) && (n <=? 57) then Some (n - 48) else None.

(** The longest prefix of decimal digits: the number read so far, how many
    digits were read, and the rest of the string. *)
Fixpoint digits (s : string) (acc : Z) (count : nat) : Z * nat * string :=
  match s with
  | String c r =>
      match digit c with
      | Some d => digits r (10 * acc + d) (S count)
      | None => (acc, count, s)
      end
  | EmptyString => (acc, count, s)
  end.

Definition sign (s : string) : bool * string :=
  match s with
  | String "+" r => (false, r)
  | String "-" r => (true, r)
  | _ => (false, s)
  end.

(** [ExponentPart], read only when at least one digit follows. *)
Definition exponent_part (s : string) : Z :=
  match s with
  | String c r =>
      if Ascii.eqb c "e" || Ascii.eqb c "E" then
        let '(neg, r') := sign r in
        let '(v, n, _) := digits r' 0 0%nat in
        match n with
        | O => 0
        | S _ => if neg then - v else v
        end
      else 0
  | EmptyString => 0
  end.

(** [parseFloat]: the argument as a string, leading white space dropped,
    then the longest prefix that is a [StrDecimalLiteral]; [NaN] if there is
    none. *)
Definition parseFloat (v : value) : float :=
  let '(neg, s) := sign (trimStart (ToString v)) in
  if String.prefix "Infinity" s then (if neg then neg_infinity else infinity)
  else
    let '(ip, ni, r1) := digits s 0 0%nat in
    let '(m, nf, r2) :=
      match r1 with
      | String "." r => digits r ip 0%nat
      | _ => (ip, 0%nat, r1)
      end in
    match (ni + nf)%nat with
    | O => nan
    | S _ =>
        let e := exponent_part r2 - Z.of_nat nf in
        if 0 <=? e then Number.of_ratio neg (m * 10 ^ e) 1
        else Number.of_ratio neg m (10 ^ (- e))
    end.

End ParseFloat.
Import ParseFloat.

(** ** The program *)

Record TimeInfo : Type := { text : string; hoursLeft : float }.

Record Geometry : Type :=
  { width : float; height : float; leftPos : float; topPos : float }.

(** The [div] that [renderItems] appends for one item: its class, the style
    values assigned to it, and what its tooltip listener closes over. *)
Record MapItem : Type :=
  { className : string;
    style_width : string;
    style_height : string;
    style_left : string;
    style_top : string;
    style_backgroundColor : string;
    tooltip_item : obj;
    tooltip_timeInfo : TimeInfo }.

Inductive exn : Type :=
| TypeError (msg : string).

Inductive effect : Type :=
| PreventDefault
| Alert (msg : string)
| Fetch (url method : string) (headers : list (string * string)) (body : string)
| SetItemType (v : string)
| FetchLogs
| ConsoleError (msg : string).

(** The outcome of the supply request: the [success] field of the JSON
    answer, or a failure of the request or of its decoding. *)
Inductive response : Type :=
| Answer (success : bool)
| Failure.

(** [parseCSV], lines 61-74. *)
Fixpoint fill_record (o : obj) (headers : list string) (index : nat)
    (row : list string) : obj :=
  match headers with
  | [] => o
  | header :: rest =>
      fill_record (obj_set o header (array_get row index)) rest (S index) row
  end.

Definition parseCSV (text : string) : list obj :=
  let lines := split LF (trim text) in
  match lines with
  | [] => []
  | line0 :: rest =>
      let headers := map trim (split "," line0) in
      map (fun line =>
             let row := map trim (split "," line) in
             fill_record ∅ headers 0 row)
          rest
  end.

(** [getColorFromTime], lines 137-143. *)
Definition getColorFromTime (hoursLeft : float) : string :=
  if (hoursLeft =? infinity)%float then "#3498db"
  else if (hoursLeft <=? 0)%float then "#7f8c8d"
  else if (hoursLeft <? 24)%float then "#e74c3c"
  else if (hoursLeft <? 72)%float then "#f1c40f"
  else "#2ecc71".

(** [JSON.stringify] of a string: the quoted form. *)
Module JSON.

Definition hex (n : N) : ascii :=
  match n with
  | 0 => "0" | 1 => "1" | 2 => "2" | 3 => "3" | 4 => "4" | 5 => "5"
  | 6 => "6" | 7 => "7" | 8 => "8" | 9 => "9" | 10 => "a" | 11 => "b"
  | 12 => "c" | 13 => "d" | 14 => "e" | _ => "f"
  end%N%char.

Definition escape (c : ascii) : string :=
  let n := N_of_ascii c in
  if Ascii.eqb c quote then String backslash (String quote EmptyString)
  else if Ascii.eqb c backslash then String backslash (String backslash EmptyString)
  else match n with
       | 8 => String backslash "b"
       | 9 => String backslash "t"
       | 10 => String backslash "n"
       | 12 => String backslash "f"
       | 13 => String backslash "r"
       | _ =>
           if (n <? 32)%N
           then String backslash
                  ("u00" ++ String (hex (n / 16)) (String (hex (n mod 16)) EmptyString))
           else String c EmptyString
       end%N.

Fixpoint escape_all (s : string) : string :=
  match s with
  | String c r => escape c ++ escape_all r
  | EmptyString => EmptyString
  end.

Definition quoted (s : string) : string :=
  String quote (escape_all s ++ String quote EmptyString).

(** [JSON.stringify({ item_type: v })]. *)
Definition stringify_item_type (v : string) : string :=
  "{" ++ quoted "item_type" ++ ":" ++ quoted v ++ "}".

End JSON.

Section Host.

(** The host's date parser: the time value, in milliseconds since the
    epoch, of a string it accepts. *)
Variable Date_parse : string -> option Z.

(** [Number::toString] on the finite Numbers that are not integers below
    [10^21]: the shortest digits that read back, left to the host. *)
Variable Number_digits : float -> string.

Definition Number_toString (x : float) : string :=
  if is_nan x then "NaN"
  else if (x =? infinity)%float then "Infinity"
  else if (x =? neg_infinity)%float then "-Infinity"
  else match Number.to_integer x with
       | Some z => if (Z.abs z <? 10 ^ 21)%Z then pretty z else Number_digits x
       | None => Number_digits x
       end.

(** [TimeClip]: a time value is an integer of at most 8.64e15 in absolute
    value, or [NaN]. *)
Definition TimeClip (t : Z) : float :=
  if (Z.abs t <=? 8640000000000000)%Z then Number.of_Z t else nan.

(** The time value of [new Date(v)]. *)
Definition new_Date (v : value) : float :=
  match v with
  | str s =>
      match Date_parse s with
      | Some t => TimeClip t
      | None => nan
      end
  | undefined => nan
  end.

(** [getTimeLeft], lines 122-134; [now] is the time value of [new Date()]. *)
Definition getTimeLeft (now : Z) (expiry : value) : TimeInfo :=
  if value_eqb expiry (str "N/A") || negb (truthy expiry) then
    {| text := "No Expiry"; hoursLeft := infinity |}
  else
    let expiryDate := new_Date expiry in
    let diffMs := (expiryDate - Number.of_Z now)%float in
    let diffHours := (diffMs / (1000 * 60 * 60))%float in
    if (diffHours <? 0)%float then
      {| text := "Expired"; hoursLeft := 0 |}
    else
      {| text := "Expires in " ++ Number_toString (Number.floor diffHours) ++ " hours";
         hoursLeft := diffHours |}.

(** The numbers [renderItems] computes for one item, lines 83-101. *)
Definition geometry (containerWidth containerHeight : float)
    (coordinates : list string) (item : obj) : Geometry :=
  let leftPercent := parseFloat (array_get coordinates 0) in
  let topPercent := parseFloat (array_get coordinates 1) in
  let width := parseFloat (obj_get item "length") in
  let height := parseFloat (obj_get item "breadth") in
  {| width := width;
     height := height;
     leftPos := (leftPercent / 100 * containerWidth - width / 2)%float;
     topPos := (topPercent / 100 * containerHeight - height / 2)%float |}.

Definition px (x : float) : string := Number_toString x ++ "px".

(** The body of the loop of [renderItems], lines 80-117.  Calling [split]
    on an absent [centre_coordinates] throws. *)
Definition renderItem (containerWidth containerHeight : float) (now : Z)
    (item : obj) : exn + MapItem :=
  match obj_get item "centre_coordinates" with
  | undefined => inl (TypeError "Cannot read properties of undefined")
  | str cc =>
      let g := geometry containerWidth containerHeight (split "," cc) item in
      let timeInfo := getTimeLeft now (obj_get item "Expiry_Date") in
      inr {| className := "map-item";
             style_width := px (width g);
             style_height := px (height g);
             style_left := px (leftPos g);
             style_top := px (topPos g);
             style_backgroundColor := getColorFromTime (hoursLeft timeInfo);
             tooltip_item := item;
             tooltip_timeInfo := timeInfo |}
  end.

(** [renderItems], lines 76-118: the container is emptied, then receives
    one [div] per item, in order, until an item throws.  [clock i] is the
    time read while the item of index [i] is processed. *)
Fixpoint renderItems_from (containerWidth containerHeight : float)
    (clock : nat -> Z) (i : nat) (items : list obj) : list MapItem * option exn :=
  match items with
  | [] => ([], None)
  | item :: rest =>
      match renderItem containerWidth containerHeight (clock i) item with
      | inl e => ([], Some e)
      | inr d =>
          let '(ds, r) :=
            renderItems_from containerWidth containerHeight clock (S i) rest in
          (d :: ds, r)
      end
  end.

Definition renderItems (containerWidth containerHeight : float)
    (clock : nat -> Z) (items : list obj) : list MapItem * option exn :=
  renderItems_from containerWidth containerHeight clock 0 items.

End Host.

(** [handleSupplyRequest], lines 160-178: what the handler does before the
    answer arrives, given the value of the [item-type] input. *)
Definition handleSupplyRequest (itemType : string) : list effect :=
  PreventDefault ::
  if String.eqb (trim itemType) EmptyString then
    [Alert "Please enter an item type for the supply request."]
  else
    [Fetch "/api/supply_request" "POST"
       [("Content-Type", "application/json")]
       (JSON.stringify_item_type itemType)].

(** Lines 179-193: what the handler does when the request settles. *)
Definition supplyRequestSettled (r : response) : list effect :=
  match r with
  | Answer true =>
      [Alert "Supply request submitted successfully!"; SetItemType EmptyString; FetchLogs]
  | Answer false => [Alert "Supply request failed. Try again."]
  | Failure =>
      [ConsoleError "Error with supply request: "; Alert "Error sending supply request."]
  end.

(** [loadMap], lines 35-39: the background image given to the map. *)
Definition loadMap (mapImgName : string) : string :=
  "url('/maps/" ++ mapImgName ++ "')".

(** [loadCSVDataFromMap], lines 41-45: the address of the CSV file of a
    map, from the name of its image up to the first full stop. *)
Definition csvUrl (mapImgName : string) : string :=
  let baseName := array_get (split "." mapImgName) 0 in
  "/data/" ++ ToString baseName ++ ".csv".

(** How the request for the CSV file settles. *)
Inductive fetched : Type :=
| Response (ok : bool) (body : string)
| NetworkError.

(** [loadCSVDataFromMap], lines 46-57, once the request has settled: the
    children of the item container and what is logged.  Only [renderItems]
    touches the container; an error thrown on the way is caught and
    logged. *)
Definition loadCSVDataSettled (Date_parse : string -> option Z)
    (Number_digits : float -> string) (containerWidth containerHeight : float)
    (clock : nat -> Z) (container : list MapItem) (r : fetched)
    : list MapItem * list effect :=
  match r with
  | Response true text =>
      match renderItems Date_parse Number_digits containerWidth containerHeight
              clock (parseCSV text) with
      | (divs, None) => (divs, [])
      | (divs, Some _) => (divs, [ConsoleError "Error loading CSV: "])
      end
  | Response false _ => (container, [ConsoleError "Error loading CSV: "])
  | NetworkError => (container, [ConsoleError "Error loading CSV: "])
  end.

(** An entry of the log sidebar: the [div] that [fetchLogs] appends. *)
Record LogEntry : Type := { entry_className : string; textContent : string }.

(** The answer to the request for the logs, as far as [fetchLogs] reads it:
    whether [data.success] is truthy, and [data.logs], which is [None] when
    it is absent or no array (calling [forEach] on it then throws).  An
    element of the array is [None] when it is [null], whose properties cannot
    be read; any other element is read through its [timestamp] and [action]
    alone, which are strings or absent here.  [LogsFailure] stands for a
    request that fails, a body that is no JSON, and the JSON [null]: all
    three end in the [catch]. *)
Inductive logs_answer : Type :=
| LogsAnswer (success : bool) (logs : option (list (option obj)))
| LogsFailure.

(** Lines 205-208: the entry made for one log. *)
Definition log_entry (log : obj) : LogEntry :=
  {| entry_className := "log-entry";
     textContent :=
       "[" ++ ToString (obj_get log "timestamp") ++ "] [" ++
       ToString (obj_get log "action") ++ "]" |}.

(** Lines 204-209: [data.logs.forEach], appending to the container until an
    element cannot be read. *)
Fixpoint forEach_logs (logs : list (option obj)) (container : list LogEntry)
    : list LogEntry * option exn :=
  match logs with
  | [] => (container, None)
  | None :: _ =>
      (container, Some (TypeError "Cannot read properties of null"))
  | Some log :: rest => forEach_logs rest (container ++ [log_entry log])
  end.

(** [fetchLogs], lines 197-213, once the request has settled: the children
    of the log container and what is logged. *)
Definition fetchLogsSettled (container : list LogEntry) (r : logs_answer)
    : list LogEntry * list effect :=
  match r with
  | LogsAnswer true (Some logs) =>
      match forEach_logs logs [] with
      | (entries, None) => (entries, [])
      | (entries, Some _) => (entries, [ConsoleError "Error fetching logs: "])
      end
  | LogsAnswer true None => ([], [ConsoleError "Error fetching logs: "])
  | LogsAnswer false _ => (container, [])
  | LogsFailure => (container, [ConsoleError "Error fetching logs: "])
  end.

(** ** Sample host, for closed instances *)

(** A host whose date parser knows one date, 2025-03-10T02:00:00Z. *)
Definition sample_Date_parse (s : string) : option Z :=
  if String.eqb s "2025-03-10T02:00:00Z" then Some 1741572000000%Z else None.

(** A host that prints no digits for the Numbers left to it. *)
Definition sample_Number_digits (x : float) : string := "?".

(** ** The transform of the specification, section 4.4, in its own words *)
Definition place_spec (x y widthPx heightPx containerWidthPx containerHeightPx : float)
    : float * float :=
  ((x / 100 * containerWidthPx - widthPx / 2)%float,
   (y / 100 * containerHeightPx - heightPx / 2)%float).

(** ** Definitions used in the statements *)

(** An item at the middle of the map, 40 by 20. *)
Definition sample_item : obj :=
  <["centre_coordinates" := str "50,50"]>
    (<["length" := str "40"]> (<["breadth" := str "20"]> ∅)).

(** The same item with coordinates that are no numbers. *)
Definition sample_bad_item : obj :=
  <["centre_coordinates" := str "abc"]>
    (<["length" := str "40"]> (<["breadth" := str "20"]> ∅)).

(** The trimmed fields of a line. *)
Definition cells (line : string) : list string := map trim (split "," line).

(** [f] applied to the last element of a list. *)
Fixpoint on_last (f : string -> string) (l : list string) : list string :=
  match l with
  | [] => []
  | [x] => [f x]
  | x :: r => x :: on_last f r
  end.

(** The lines left after the text is trimmed. *)
Definition trimmed_lines (header : string) (rows : list string) : list string :=
  match rows with
  | [] => [trim header]
  | _ :: _ => trimStart header :: on_last trimEnd rows
  end.

(** A header line and two data lines, and the records they give. *)
Definition csv_example : string :=
  "a,b" ++ String LF ("1,2" ++ String LF "3,4").

Definition csv_example_records : list obj :=
  [ <["a" := str "1"]> (<["b" := str "2"]> ∅);
    <["a" := str "3"]> (<["b" := str "4"]> ∅) ].

(** A time value: an integer number of milliseconds within the range of
    ECMAScript dates. *)
Definition TimeValue (t : Z) : Prop := (Z.abs t <= 8640000000000000)%Z.

(** The classification of the specification, section 4.2, in its own
    words, on the hours between the expiry and now. *)
Definition classify_spec (Number_digits : float -> string) (diffHours : float)
    : TimeInfo :=
  if (diffHours <? 0)%float then {| text := "Expired"; hoursLeft := 0 |}
  else {| text := "Expires in "
                    ++ Number_toString Number_digits (Number.floor diffHours)
                    ++ " hours";
          hoursLeft := diffHours |}.

(** The carriage return. *)
Definition CR : ascii := "013"%char.

(** An item that expires at the date the sample host knows. *)
Definition sample_dated_item : obj :=
  <["centre_coordinates" := str "50,50"]>
    (<["Expiry_Date" := str "2025-03-10T02:00:00Z"]> ∅).

(** The items whose [centre_coordinates] is a string, so that [split] can
    be called on it. *)
Definition has_coordinates (item : obj) : Prop :=
  exists cc : string, obj_get item "centre_coordinates" = str cc.

(** The logs of an answer up to its first [null] element. *)
Fixpoint leading_logs (logs : list (option obj)) : list obj :=
  match logs with
  | Some log :: rest => log :: leading_logs rest
  | _ => []
  end.

(** The elements of [data.logs] whose properties can be read. *)
Definition readable (log : option obj) : bool :=
  match log with
  | Some _ => true
  | None => false
  end.

(** The log container after a run of settled requests, in the order in
    which they settle: [fetchLogs] is called when the page loads, every 30
    seconds, and after a successful supply request. *)
Definition poll (container : list LogEntry) (answers : list logs_answer)
    : list LogEntry :=
  fold_left (fun c r => fst (fetchLogsSettled c r)) answers container.

(** The answers that report success. *)
Definition succeeded (r : logs_answer) : bool :=
  match r with
  | LogsAnswer true _ => true
  | _ => false
  end.

(** The last answer of a run that reports success. *)
Definition last_success (answers : list logs_answer) : option logs_answer :=
  List.find succeeded (rev answers).

(** Four elements of [data.logs]: a log with both fields, a log without
    [timestamp], [null], and a log without [action]. *)
Definition sample_logs : list (option obj) :=
  [Some (obj_set (obj_set ∅ "timestamp" (str "2025-03-09T10:00:00"))
           "action" (str "placement"));
   Some (obj_set ∅ "action" (str "retrieval"));
   None;
   Some (obj_set ∅ "timestamp" (str "2025-03-09T11:00:00"))].

(** ** Rounding to binary64, read on integers *)

Module Round.

Local Open Scope Z_scope.

(** A bit as an integer. *)
Definition b2z (b : bool) : Z := if b then 1 else 0.

(** A shift record as one integer: four times the mantissa, plus the round
    and sticky bits. *)
Definition code (r : shr_record) : Z := 4 * shr_m r + 2 * b2z (shr_r r) + b2z (shr_s r).

(** The round and sticky bits of a location. *)
Definition loc_code (l : location) : Z :=
  match l with
  | loc_Exact => 0
  | loc_Inexact Lt => 1
  | loc_Inexact Eq => 2
  | loc_Inexact Gt => 3
  end.

(** One shift to the right, on codes. *)
Definition halve (t : Z) : Z := 2 * (t / 4) + (if t mod 4 =? 0 then 0 else 1).

(** Rounding to nearest, ties to even, on codes. *)
Definition rne (t : Z) : Z :=
  t / 4 + (if (t mod 4 =? 3) || ((t mod 4 =? 2) && Z.odd (t / 4)) then 1 else 0).

(** The mantissa and exponent that rounding gives to the value of code [t]
    at exponent [e], in the range of normal numbers. *)
Definition bv (t e : Z) : Z * Z :=
  let n := Zdigits2 (t / 4) - 53 in
  let m1 := rne (Nat.iter (Z.to_nat n) halve t) in
  if m1 =? 9007199254740992 then (4503599627370496, e + n + 1) else (m1, e + n).

(** The order of positive values given as mantissa and exponent, the
    mantissas having the same number of digits. *)
Definition lex_le (a b : Z * Z) : Prop :=
  snd a < snd b \/ (snd a = snd b /\ fst a <= fst b).

(** The mantissa and exponent of the Number of a positive integer. *)
Definition FZ (d : Z) : Z * Z := bv (4 * (d * 2 ^ 52)) (-52).

(** The Number of a small integer: its binary64 form is exact. *)
Definition SFZ (a : Z) : spec_float :=
  if a =? 0 then S754_zero false
  else S754_finite (a <? 0) (Z.to_pos (Z.abs a * 2 ^ (53 - Zdigits2 a))) (Zdigits2 a - 53).

(** The code of the quotient of [A] by the mantissa of 3600000. *)
Definition qcode (A : Z) : Z :=
  4 * (A / 7730941132800000)
  + loc_code (new_location 7730941132800000 (A mod 7730941132800000)).

(** The mantissa and exponent of a positive normal number divided by
    3600000. *)
Definition hour_pair (m e : Z) : Z * Z := bv (qcode (m * 2 ^ 53)) (e - 22).

(** The mantissa and exponent of the hours of a positive span of
    milliseconds. *)
Definition hours_pair (d : Z) : Z * Z := hour_pair (fst (FZ d)) (snd (FZ d)).

End Round.

(** * Properties *)

(** ** Binary64 facts *)

Lemma SF_infinity : Prim2SF infinity = S754_infinity false.
Proof. reflexivity. Qed.

Lemma SF_zero : Prim2SF 0 = S754_zero false.
Proof. reflexivity. Qed.

Lemma SF_24 : Prim2SF 24 = S754_finite false 6755399441055744 (-48).
Proof. vm_compute. reflexivity. Qed.

Lemma SF_72 : Prim2SF 72 = S754_finite false 5066549580791808 (-46).
Proof. vm_compute. reflexivity. Qed.

Lemma SF_nan : Prim2SF nan = S754_nan.
Proof. reflexivity. Qed.

(** Mantissas are compared through [Z], where [lia] is at ease with large
    constants. *)
Lemma compare_cont_spec (a b : positive) :
  CompareSpec (Z.pos a = Z.pos b) (Z.pos a < Z.pos b)%Z (Z.pos b < Z.pos a)%Z
    (PosDef.Pos.compare_cont Eq a b).
Proof.
  change (PosDef.Pos.compare_cont Eq a b) with (Pos.compare a b).
  destruct (Pos.compare_spec a b); constructor;
    [now subst | now apply Pos2Z.pos_lt_pos | now apply Pos2Z.pos_lt_pos].
Qed.

Ltac to_spec :=
  rewrite ?FloatAxioms.eqb_spec, ?FloatAxioms.leb_spec, ?FloatAxioms.ltb_spec;
  rewrite ?SF_infinity, ?SF_zero, ?SF_24, ?SF_72;
  unfold SFeqb, SFltb, SFleb.

Ltac cmp_cases :=
  repeat match goal with
  | |- context [(?a ?= ?b)%Z] => destruct (Z.compare_spec a b)
  | |- context [PosDef.Pos.compare_cont Eq ?a ?b] => destruct (compare_cont_spec a b)
  end.

Ltac cmp_close :=
  first [ reflexivity | discriminate | lia
        | intros; intuition (first [discriminate | lia | reflexivity | congruence]) ].

Lemma is_nan_spec (x : float) : is_nan x = true <-> Prim2SF x = S754_nan.
Proof.
  unfold is_nan. rewrite FloatAxioms.eqb_spec. unfold SFeqb.
  destruct (Prim2SF x) as [[]|[]| |[] m e]; cbn [SFcompare negb];
    try (split; congruence).
  all: rewrite Z.compare_refl; destruct (compare_cont_spec m m);
    split; (discriminate || lia).
Qed.

Lemma is_nan_eq (x : float) : is_nan x = true -> x = nan.
Proof.
  intros H. apply Prim2SF_inj. rewrite SF_nan. now apply is_nan_spec.
Qed.

Lemma eqb_infinity (x : float) : (x =? infinity)%float = true <-> x = infinity.
Proof.
  split; [|intros ->; reflexivity].
  intros H. apply Prim2SF_inj. rewrite SF_infinity.
  revert H. to_spec.
  destruct (Prim2SF x) as [[]|[]| |[] m e]; cbn [SFcompare]; congruence.
Qed.

Lemma sub_nan_l (x : float) : (nan - x)%float = nan.
Proof.
  apply Prim2SF_inj. rewrite FloatAxioms.sub_spec, SF_nan. reflexivity.
Qed.

Lemma div_nan_l (x : float) : (nan / x)%float = nan.
Proof.
  apply Prim2SF_inj. rewrite FloatAxioms.div_spec, SF_nan. reflexivity.
Qed.

Lemma mul_nan_l (x : float) : (nan * x)%float = nan.
Proof.
  apply Prim2SF_inj. rewrite FloatAxioms.mul_spec, SF_nan. reflexivity.
Qed.

(** ** Strings *)

Lemma trimStart_blank (s : string) : blank s = true -> trimStart s = EmptyString.
Proof.
  induction s as [|c r IH]; cbn; [reflexivity|].
  destruct (is_ws c); cbn; [exact IH | discriminate].
Qed.

Lemma trimStart_not_blank (s : string) :
  blank s = false ->
  exists c r, trimStart s = String c r /\ is_ws c = false.
Proof.
  induction s as [|c r IH]; cbn; [discriminate|].
  destruct (is_ws c) eqn:E; cbn; [exact IH | eauto].
Qed.

Lemma trim_blank (s : string) : blank s = true -> trim s = EmptyString.
Proof. intros H. unfold trim. now rewrite trimStart_blank. Qed.

Lemma trim_not_blank (s : string) : blank s = false -> trim s <> EmptyString.
Proof.
  intros H. unfold trim.
  destruct (trimStart_not_blank s H) as (c & r & -> & Hc).
  cbn. rewrite Hc. cbn. discriminate.
Qed.

(** ** Colour mapping *)

(** C1. [getColorFromTime] always returns one of the five colour tokens, and
    on every Number that is not NaN it follows the table: [+Infinity] is
    blue, [h <= 0] grey, [0 < h < 24] red, [24 <= h < 72] yellow and a
    finite [h >= 72] green; each such Number falls in one of the five rows,
    and 24 is yellow and 72 green. *)
Theorem getColorFromTime_table (h : float) :
  In (getColorFromTime h) ["#3498db"; "#7f8c8d"; "#e74c3c"; "#f1c40f"; "#2ecc71"] /\
  (h = infinity -> getColorFromTime h = "#3498db") /\
  ((h <=? 0)%float = true -> getColorFromTime h = "#7f8c8d") /\
  ((0 <? h)%float = true /\ (h <? 24)%float = true -> getColorFromTime h = "#e74c3c") /\
  ((24 <=? h)%float = true /\ (h <? 72)%float = true -> getColorFromTime h = "#f1c40f") /\
  ((72 <=? h)%float = true /\ h <> infinity -> getColorFromTime h = "#2ecc71") /\
  (is_nan h = false ->
     h = infinity \/ (h <=? 0)%float = true \/
     ((0 <? h)%float = true /\ (h <? 24)%float = true) \/
     ((24 <=? h)%float = true /\ (h <? 72)%float = true) \/
     ((72 <=? h)%float = true /\ h <> infinity)) /\
  getColorFromTime 0 = "#7f8c8d" /\
  getColorFromTime 24 = "#f1c40f" /\
  getColorFromTime 72 = "#2ecc71".
Proof.
  split.
  { unfold getColorFromTime.
    repeat match goal with |- context [if ?b then _ else _] => destruct b end;
      cbn; tauto. }
  split; [intros ->; reflexivity|].
  assert (Hinf : h <> infinity -> (h =? infinity)%float = false).
  { intros Hne. destruct (h =? infinity)%float eqn:E; [|reflexivity].
    now apply eqb_infinity in E. }
  assert (Hinf' : (h =? infinity)%float = true -> h = infinity)
    by apply eqb_infinity.
  assert (Hnan : is_nan h = false -> Prim2SF h <> S754_nan).
  { intros Hn Hs. apply is_nan_spec in Hs. congruence. }
  split; [|split; [|split; [|split; [|split]]]].
  6: repeat split; vm_compute; reflexivity.
  1-4: try (intros [H1 H2]; try apply Hinf in H2; revert H1 H2);
       unfold getColorFromTime; to_spec;
       destruct (Prim2SF h) as [[]|[]| |[] m e]; cbn [SFcompare];
       cmp_cases; cmp_close.
  intros Hn. apply Hnan in Hn.
  destruct (h =? infinity)%float eqn:E; [left; now apply Hinf'|right].
  assert (Hne : h <> infinity) by (intros ->; discriminate).
  revert E. to_spec. clear Hinf Hinf'.
  destruct (Prim2SF h) as [[]|[]| |[] m e]; cbn [SFcompare];
    try congruence; cmp_cases; intros _;
    first [ left; reflexivity
          | right; left; split; reflexivity
          | right; right; left; split; reflexivity
          | right; right; right; split; [reflexivity | exact Hne]
          | exfalso; lia ].
Qed.

(** ** Expiry classification: no expiry, and dates that do not parse *)

Section Classification.

Variable Date_parse : string -> option Z.
Variable Number_digits : float -> string.

(** C3. At every instant, an absent expiry, the empty string and the
    string N/A are classified as No Expiry with infinitely many hours
    left. *)
Theorem getTimeLeft_no_expiry (now : Z) :
  getTimeLeft Date_parse Number_digits now undefined
    = {| text := "No Expiry"; hoursLeft := infinity |} /\
  getTimeLeft Date_parse Number_digits now (str EmptyString)
    = {| text := "No Expiry"; hoursLeft := infinity |} /\
  getTimeLeft Date_parse Number_digits now (str "N/A")
    = {| text := "No Expiry"; hoursLeft := infinity |}.
Proof. repeat split. Qed.

Lemma getTimeLeft_dated (now : Z) (s : string) :
  s <> EmptyString -> s <> "N/A" ->
  getTimeLeft Date_parse Number_digits now (str s) =
    let diffHours :=
      ((new_Date Date_parse (str s) - Number.of_Z now) / (1000 * 60 * 60))%float in
    if (diffHours <? 0)%float then {| text := "Expired"; hoursLeft := 0 |}
    else {| text := "Expires in "
                      ++ Number_toString Number_digits (Number.floor diffHours)
                      ++ " hours";
            hoursLeft := diffHours |}.
Proof.
  intros Hne Hna. unfold getTimeLeft.
  replace (value_eqb (str s) (str "N/A")) with false.
  2: { symmetry. cbn. now apply String.eqb_neq. }
  replace (truthy (str s)) with true; [reflexivity|].
  destruct s; [congruence | reflexivity].
Qed.

(** C10. An expiry string that is neither empty nor N/A and gives an
    invalid date is labelled with NaN hours, has NaN hours left, and is
    coloured green. *)
Theorem getTimeLeft_invalid_date (now : Z) (s : string) :
  s <> EmptyString -> s <> "N/A" ->
  is_nan (new_Date Date_parse (str s)) = true ->
  getTimeLeft Date_parse Number_digits now (str s)
    = {| text := "Expires in NaN hours"; hoursLeft := nan |} /\
  getColorFromTime
    (hoursLeft (getTimeLeft Date_parse Number_digits now (str s))) = "#2ecc71".
Proof.
  intros Hne Hna Hnan. apply is_nan_eq in Hnan.
  rewrite (getTimeLeft_dated now s Hne Hna), Hnan.
  cbv zeta. rewrite sub_nan_l, div_nan_l. split; reflexivity.
Qed.

End Classification.

(** The hypotheses of C10 hold for a string the sample host does not know. *)
Lemma getTimeLeft_invalid_date_witness :
  getTimeLeft sample_Date_parse sample_Number_digits 0 (str "soon")
    = {| text := "Expires in NaN hours"; hoursLeft := nan |} /\
  getColorFromTime
    (hoursLeft (getTimeLeft sample_Date_parse sample_Number_digits 0 (str "soon")))
    = "#2ecc71".
Proof.
  apply (getTimeLeft_invalid_date sample_Date_parse sample_Number_digits 0 "soon");
    [discriminate | discriminate | reflexivity].
Defined.

(** ** The supply request form *)

(** C9. A submission whose item type is empty or all white space shows the
    alert and issues no request; any other submission issues the POST
    request, whose body carries the item type as typed. *)
Theorem handleSupplyRequest_blank_guard (itemType : string) :
  (blank itemType = true ->
     handleSupplyRequest itemType
       = [PreventDefault; Alert "Please enter an item type for the supply request."]) /\
  (blank itemType = false ->
     handleSupplyRequest itemType
       = [PreventDefault;
          Fetch "/api/supply_request" "POST" [("Content-Type", "application/json")]
            (JSON.stringify_item_type itemType)]).
Proof.
  unfold handleSupplyRequest. split; intros H.
  - now rewrite (trim_blank _ H).
  - apply trim_not_blank in H.
    destruct (String.eqb_spec (trim itemType) EmptyString); [contradiction|reflexivity].
Qed.

(** ** Placement *)

Lemma split_no_sep (sep : ascii) (s : string) :
  has sep s = false -> split sep s = [s].
Proof.
  induction s as [|c r IH]; cbn; [reflexivity|].
  destruct (Ascii.eqb c sep); cbn; [discriminate|].
  intros H. now rewrite (IH H).
Qed.

Section Placement.

Variable Date_parse : string -> option Z.
Variable Number_digits : float -> string.

Lemma px_nan : px Number_digits nan = "NaNpx".
Proof. reflexivity. Qed.

(** C4, as the code behaves.  An item whose [centre_coordinates] is a
    string is always placed: no failure is signalled.  When the first part
    does not read as a number the left position is NaN, and when the second
    part is missing (no comma) or does not read as a number the top
    position is NaN; the style value assigned is then NaNpx. *)
Theorem renderItem_unparseable_coordinates
    (containerWidth containerHeight : float) (now : Z) (item : obj) (cc : string) :
  obj_get item "centre_coordinates" = str cc ->
  exists d : MapItem,
    renderItem Date_parse Number_digits containerWidth containerHeight now item
      = inr d /\
    (is_nan (parseFloat (array_get (split "," cc) 0)) = true ->
       leftPos (geometry containerWidth containerHeight (split "," cc) item) = nan /\
       style_left d = "NaNpx") /\
    (is_nan (parseFloat (array_get (split "," cc) 1)) = true ->
       topPos (geometry containerWidth containerHeight (split "," cc) item) = nan /\
       style_top d = "NaNpx") /\
    (has "," cc = false ->
       topPos (geometry containerWidth containerHeight (split "," cc) item) = nan /\
       style_top d = "NaNpx").
Proof.
  intros Hcc. unfold renderItem. rewrite Hcc. eexists. split; [reflexivity|].
  cbn [style_left style_top geometry leftPos topPos].
  assert (Hleft : forall x w, is_nan x = true ->
            (x / 100 * containerWidth - w / 2)%float = nan).
  { intros x w Hx. apply is_nan_eq in Hx. subst x.
    now rewrite div_nan_l, mul_nan_l, sub_nan_l. }
  assert (Htop : forall x w, is_nan x = true ->
            (x / 100 * containerHeight - w / 2)%float = nan).
  { intros x w Hx. apply is_nan_eq in Hx. subst x.
    now rewrite div_nan_l, mul_nan_l, sub_nan_l. }
  repeat split.
  - now apply Hleft.
  - rewrite Hleft by assumption. apply px_nan.
  - now apply Htop.
  - rewrite Htop by assumption. apply px_nan.
  - rewrite (split_no_sep _ _ H). now apply Htop.
  - rewrite (split_no_sep _ _ H). rewrite Htop by reflexivity. apply px_nan.
Qed.

(** C5. For an item whose [centre_coordinates] is a string, with [x] and
    [y] the numbers read from its two parts and [w] and [h] the numbers
    read from [length] and [breadth], the item is placed at
    [x / 100 * containerWidth - w / 2] from the left and
    [y / 100 * containerHeight - h / 2] from the top, with no clamping; the
    coordinates 50,50 with size 40 by 20 in a container of 400 by 200 give
    180 and 90. *)
Theorem renderItem_place
    (containerWidth containerHeight : float) (now : Z) (item : obj) (cc : string) :
  obj_get item "centre_coordinates" = str cc ->
  let x := parseFloat (array_get (split "," cc) 0) in
  let y := parseFloat (array_get (split "," cc) 1) in
  let w := parseFloat (obj_get item "length") in
  let h := parseFloat (obj_get item "breadth") in
  exists d : MapItem,
    renderItem Date_parse Number_digits containerWidth containerHeight now item
      = inr d /\
    (leftPos (geometry containerWidth containerHeight (split "," cc) item),
     topPos (geometry containerWidth containerHeight (split "," cc) item))
      = place_spec x y w h containerWidth containerHeight /\
    style_left d
      = px Number_digits (fst (place_spec x y w h containerWidth containerHeight)) /\
    style_top d
      = px Number_digits (snd (place_spec x y w h containerWidth containerHeight)) /\
    style_width d = px Number_digits w /\
    style_height d = px Number_digits h /\
    place_spec (parseFloat (array_get (split "," "50,50") 0))
               (parseFloat (array_get (split "," "50,50") 1)) 40 20 400 200
      = (180%float, 90%float).
Proof.
  intros Hcc x y w h. unfold renderItem. rewrite Hcc.
  eexists. split; [reflexivity|]. repeat split.
Qed.

End Placement.

(** The sample item is placed at 180px, 90px. *)
Lemma renderItem_place_witness :
  exists d : MapItem,
    renderItem sample_Date_parse sample_Number_digits 400 200 0 sample_item = inr d /\
    style_left d = "180px" /\ style_top d = "90px" /\
    style_width d = "40px" /\ style_height d = "20px".
Proof.
  destruct (renderItem_place sample_Date_parse sample_Number_digits 400 200 0
              sample_item "50,50" eq_refl)
    as (d & Hd & _ & Hl & Ht & Hw & Hh & _).
  exists d. split; [exact Hd|].
  rewrite Hl, Ht, Hw, Hh. vm_compute. repeat split.
Defined.

(** C4 fails on the code: an item whose coordinates are the string abc is
    placed, with no failure signalled, and both position styles are NaNpx. *)
Lemma renderItem_unparseable_counterexample :
  match renderItem sample_Date_parse sample_Number_digits 400 200 0 sample_bad_item with
  | inr d => style_left d = "NaNpx" /\ style_top d = "NaNpx"
  | inl _ => False
  end.
Proof. vm_compute. split; reflexivity. Qed.

Lemma renderItem_unparseable_coordinates_witness :
  exists d : MapItem,
    renderItem sample_Date_parse sample_Number_digits 400 200 0 sample_bad_item = inr d /\
    style_left d = "NaNpx" /\ style_top d = "NaNpx".
Proof.
  destruct (renderItem_unparseable_coordinates sample_Date_parse sample_Number_digits
              400 200 0 sample_bad_item "abc" eq_refl)
    as (d & Hd & Hl & _ & Ht).
  exists d. split; [exact Hd|]. split.
  - apply Hl. reflexivity.
  - apply Ht. reflexivity.
Defined.

(** ** Trimming and splitting *)

Lemma append_nil (t : string) : EmptyString ++ t = t.
Proof. reflexivity. Qed.

Lemma append_cons (c : ascii) (r t : string) : String c r ++ t = String c (r ++ t).
Proof. reflexivity. Qed.

Ltac str_simpl := rewrite ?append_cons, ?append_nil; cbn.

Lemma trimEnd_blank (s : string) : blank s = true -> trimEnd s = EmptyString.
Proof.
  induction s as [|c r IH]; cbn; [reflexivity|].
  destruct (is_ws c); cbn; [|discriminate].
  intros H. now rewrite (IH H).
Qed.

Lemma trimEnd_empty_blank (s : string) : trimEnd s = EmptyString -> blank s = true.
Proof.
  induction s as [|c r IH]; cbn; [reflexivity|].
  destruct (is_ws c); cbn; [|discriminate].
  destruct (trimEnd r); cbn; [intros _; now apply IH | discriminate].
Qed.

Lemma blank_app (s t : string) : blank (s ++ t) = blank s && blank t.
Proof.
  induction s as [|c r IH]; str_simpl; [reflexivity|].
  rewrite IH. now rewrite andb_assoc.
Qed.

Lemma trimEnd_app_blank (s t : string) :
  blank t = true -> trimEnd (s ++ t) = trimEnd s.
Proof.
  intros H. induction s as [|c r IH]; str_simpl; [now apply trimEnd_blank|].
  now rewrite IH.
Qed.

Lemma trimEnd_app_not_blank (s t : string) :
  blank t = false -> trimEnd (s ++ t) = s ++ trimEnd t.
Proof.
  intros H. induction s as [|c r IH]; str_simpl; [reflexivity|].
  rewrite IH.
  destruct (r ++ trimEnd t) eqn:E; [|now rewrite andb_false_r].
  destruct r; [|discriminate]. rewrite append_nil in E.
  apply trimEnd_empty_blank in E. congruence.
Qed.

Lemma trimStart_app (s t : string) :
  blank s = false -> trimStart (s ++ t) = trimStart s ++ t.
Proof.
  induction s as [|c r IH]; str_simpl; [discriminate|].
  destruct (is_ws c); cbn; [exact IH | reflexivity].
Qed.

Lemma trimStart_idem (s : string) : trimStart (trimStart s) = trimStart s.
Proof.
  induction s as [|c r IH]; cbn; [reflexivity|].
  destruct (is_ws c) eqn:E; [exact IH | cbn; now rewrite E].
Qed.

Lemma trimEnd_idem (s : string) : trimEnd (trimEnd s) = trimEnd s.
Proof.
  induction s as [|c r IH]; cbn; [reflexivity|].
  destruct (is_ws c && is_empty (trimEnd r)) eqn:E; [reflexivity|].
  cbn. rewrite IH, E. reflexivity.
Qed.

Lemma trimStart_trimEnd (s : string) : trimStart (trimEnd s) = trimEnd (trimStart s).
Proof.
  induction s as [|c r IH]; cbn; [reflexivity|].
  destruct (is_ws c) eqn:E; cbn.
  - destruct (trimEnd r) eqn:Er; cbn.
    + now rewrite <- IH.
    + rewrite E. now rewrite <- IH.
  - now rewrite E.
Qed.

Lemma trim_trimStart (s : string) : trim (trimStart s) = trim s.
Proof. unfold trim. now rewrite trimStart_idem. Qed.

Lemma trim_trimEnd (s : string) : trim (trimEnd s) = trim s.
Proof. unfold trim. now rewrite trimStart_trimEnd, trimEnd_idem. Qed.

(** [trim] is idempotent. *)
Lemma trim_idem (s : string) : trim (trim s) = trim s.
Proof. unfold trim at 2. now rewrite trim_trimEnd, trim_trimStart. Qed.

Lemma blank_trimStart (s : string) : blank (trimStart s) = blank s.
Proof.
  induction s as [|c r IH]; cbn; [reflexivity|].
  destruct (is_ws c) eqn:E; cbn; [exact IH | now rewrite E].
Qed.

Lemma has_trimStart (c : ascii) (s : string) :
  has c s = false -> has c (trimStart s) = false.
Proof.
  induction s as [|d r IH]; cbn; [reflexivity|].
  intros H. apply orb_false_iff in H as [H1 H2].
  destruct (is_ws d); cbn; [now apply IH | now rewrite H1, H2].
Qed.

Lemma has_trimEnd (c : ascii) (s : string) :
  has c s = false -> has c (trimEnd s) = false.
Proof.
  induction s as [|d r IH]; cbn; [reflexivity|].
  intros H. apply orb_false_iff in H as [H1 H2].
  destruct (is_ws d && is_empty (trimEnd r)); cbn; [reflexivity|].
  now rewrite H1, IH.
Qed.

Lemma split_nonempty (sep : ascii) (s : string) : split sep s <> [].
Proof.
  destruct s as [|c r]; cbn; [discriminate|].
  destruct (Ascii.eqb c sep); [discriminate|].
  destruct (split sep r); discriminate.
Qed.

Lemma split_app_sep (sep : ascii) (x r : string) :
  has sep x = false -> split sep (x ++ String sep r) = x :: split sep r.
Proof.
  induction x as [|c x IH]; str_simpl.
  - intros _. now rewrite Ascii.eqb_refl.
  - intros H. apply orb_false_iff in H as [H1 H2].
    rewrite H1, (IH H2). reflexivity.
Qed.

Lemma split_join (sep : ascii) (l : list string) :
  l <> [] -> Forall (fun x => has sep x = false) l -> split sep (join sep l) = l.
Proof.
  induction l as [|x l IH]; [congruence|].
  intros _ H. inversion H as [|? ? Hx Hl]; subst.
  destruct l as [|y l].
  - cbn. now apply split_no_sep.
  - change (join sep (x :: y :: l)) with (x ++ String sep (join sep (y :: l))).
    rewrite (split_app_sep _ _ _ Hx). f_equal. now apply IH.
Qed.

Lemma join_cons (sep : ascii) (x : string) (l : list string) :
  l <> [] -> join sep (x :: l) = x ++ String sep (join sep l).
Proof. destruct l; [congruence | reflexivity]. Qed.

(** [split] loses nothing: joining the pieces gives the string back. *)
Lemma join_split (sep : ascii) (s : string) : join sep (split sep s) = s.
Proof.
  induction s as [|c r IH]; cbn [split]; [reflexivity|].
  pose proof (split_nonempty sep r) as Hne.
  destruct (Ascii.eqb_spec c sep) as [->|Hc].
  - rewrite (join_cons _ _ _ Hne), IH. reflexivity.
  - destruct (split sep r) as [|p ps]; [congruence|].
    destruct ps as [|q ps].
    + cbn [join] in *. now rewrite IH.
    + rewrite join_cons in * by discriminate.
      rewrite append_cons. now rewrite IH.
Qed.

(** ** CSV lines and cells *)

Lemma on_last_cons (f : string -> string) (x : string) (l : list string) :
  l <> [] -> on_last f (x :: l) = x :: on_last f l.
Proof. destruct l; [congruence | reflexivity]. Qed.

Lemma split_single (sep : ascii) (s p : string) : split sep s = [p] -> s = p.
Proof. intros H. rewrite <- (join_split sep s), H. reflexivity. Qed.

Lemma split_trimStart (sep : ascii) (s : string) :
  is_ws sep = false ->
  split sep (trimStart s)
    = match split sep s with
      | p :: ps => trimStart p :: ps
      | [] => []
      end.
Proof.
  intros Hsep. induction s as [|c r IH]; [reflexivity|].
  cbn [trimStart]. destruct (is_ws c) eqn:Hc.
  - rewrite IH. cbn [split].
    destruct (Ascii.eqb_spec c sep) as [->|_]; [congruence|].
    pose proof (split_nonempty sep r).
    destruct (split sep r); [congruence|]. cbn [trimStart]. now rewrite Hc.
  - cbn [split]. destruct (Ascii.eqb c sep); [reflexivity|].
    pose proof (split_nonempty sep r).
    destruct (split sep r); [congruence|]. cbn [trimStart]. now rewrite Hc.
Qed.

Lemma split_trimEnd (sep : ascii) (s : string) :
  is_ws sep = false -> split sep (trimEnd s) = on_last trimEnd (split sep s).
Proof.
  intros Hsep. induction s as [|c r IH]; [reflexivity|].
  pose proof (split_nonempty sep r) as Hne.
  cbn [trimEnd split].
  destruct (is_ws c && is_empty (trimEnd r)) eqn:Hc.
  - apply andb_true_iff in Hc as [Hc Hr].
    destruct (Ascii.eqb_spec c sep) as [->|_]; [congruence|].
    destruct (trimEnd r) eqn:Er; [|discriminate].
    cbn [split] in IH.
    destruct (split sep r) as [|p ps] eqn:Es; [congruence|].
    destruct ps as [|q ps].
    + cbn [on_last trimEnd] in *. assert (Hp : trimEnd p = EmptyString) by congruence.
      now rewrite Hc, Hp.
    + rewrite on_last_cons in IH by discriminate.
      destruct ps; cbn [on_last] in IH; discriminate.
  - cbn [split]. rewrite IH.
    destruct (Ascii.eqb c sep).
    + now rewrite on_last_cons.
    + destruct (split sep r) as [|p ps] eqn:Es; [congruence|].
      destruct ps as [|q ps].
      * cbn [on_last trimEnd]. apply split_single in Es. subst p. now rewrite Hc.
      * rewrite !on_last_cons by discriminate. reflexivity.
Qed.

Lemma comma_not_ws : is_ws "," = false.
Proof. reflexivity. Qed.

Lemma map_trim_on_last (l : list string) :
  map trim (on_last trimEnd l) = map trim l.
Proof.
  induction l as [|x l IH]; [reflexivity|].
  destruct l as [|y l].
  - cbn. now rewrite trim_trimEnd.
  - rewrite on_last_cons by discriminate. cbn [map]. now rewrite IH.
Qed.

Lemma cells_trimStart (s : string) : cells (trimStart s) = cells s.
Proof.
  unfold cells. rewrite (split_trimStart _ _ comma_not_ws).
  destruct (split "," s); [reflexivity|]. cbn [map]. now rewrite trim_trimStart.
Qed.

Lemma cells_trimEnd (s : string) : cells (trimEnd s) = cells s.
Proof.
  unfold cells. rewrite (split_trimEnd _ _ comma_not_ws). apply map_trim_on_last.
Qed.

Lemma cells_trim (s : string) : cells (trim s) = cells s.
Proof. unfold trim. now rewrite cells_trimEnd, cells_trimStart. Qed.

Lemma blank_join (l : list string) (d : string) :
  l <> [] -> blank (List.last l d) = false -> blank (join LF l) = false.
Proof.
  induction l as [|x l IH]; [congruence|]. intros _ H.
  destruct l as [|y l]; [exact H|].
  rewrite join_cons by discriminate. rewrite blank_app.
  change (blank (String LF (join LF (y :: l))))
    with (is_ws LF && blank (join LF (y :: l))).
  rewrite IH; [apply andb_false_r | discriminate | exact H].
Qed.

Lemma trimEnd_join (l : list string) (d : string) :
  l <> [] -> blank (List.last l d) = false ->
  trimEnd (join LF l) = join LF (on_last trimEnd l).
Proof.
  induction l as [|x l IH]; [congruence|]. intros _ H.
  destruct l as [|y l]; [reflexivity|].
  assert (Hb : blank (join LF (y :: l)) = false)
    by (apply (blank_join _ d); [discriminate | exact H]).
  rewrite join_cons by discriminate.
  rewrite on_last_cons by discriminate.
  rewrite (join_cons _ x).
  2: { destruct l; cbn [on_last]; discriminate. }
  rewrite trimEnd_app_not_blank.
  2: { change (is_ws LF && blank (join LF (y :: l)) = false). now rewrite Hb. }
  f_equal. cbn [trimEnd].
  rewrite <- IH; [|discriminate|exact H].
  destruct (trimEnd (join LF (y :: l))) eqn:E; [|reflexivity].
  apply trimEnd_empty_blank in E. congruence.
Qed.

Lemma trim_text (header : string) (rows : list string) (trailing : string) :
  blank header = false ->
  blank (List.last rows header) = false ->
  blank trailing = true ->
  trim (join LF (header :: rows) ++ trailing) = join LF (trimmed_lines header rows).
Proof.
  intros Hh Hl Ht. unfold trim.
  assert (Hb : blank (join LF (header :: rows)) = false).
  { destruct rows; [exact Hh|]. rewrite join_cons by discriminate.
    rewrite blank_app, Hh. reflexivity. }
  rewrite (trimStart_app _ _ Hb), (trimEnd_app_blank _ _ Ht).
  destruct rows as [|r rows]; [reflexivity|].
  rewrite join_cons by discriminate.
  rewrite (trimStart_app _ _ Hh).
  assert (Hr : blank (join LF (r :: rows)) = false)
    by (apply (blank_join _ header); [discriminate | exact Hl]).
  rewrite trimEnd_app_not_blank.
  2: { change (is_ws LF && blank (join LF (r :: rows)) = false). now rewrite Hr. }
  unfold trimmed_lines. rewrite (join_cons _ (trimStart header)).
  2: { destruct rows; cbn [on_last]; discriminate. }
  f_equal. cbn [trimEnd].
  rewrite <- (trimEnd_join _ header); [|discriminate|exact Hl].
  destruct (trimEnd (join LF (r :: rows))) eqn:E; [|reflexivity].
  apply trimEnd_empty_blank in E. congruence.
Qed.

Lemma Forall_on_last (P : string -> Prop) (f : string -> string) (l : list string) :
  (forall x, P x -> P (f x)) -> Forall P l -> Forall P (on_last f l).
Proof.
  intros Hf. induction l as [|x l IH]; [constructor|].
  intros H. inversion H; subst.
  destruct l as [|y l]; [constructor; auto|].
  rewrite on_last_cons by discriminate. constructor; auto.
Qed.

Lemma lines_of_text (header : string) (rows : list string) (trailing : string) :
  has LF header = false ->
  Forall (fun d => has LF d = false) rows ->
  blank header = false ->
  blank (List.last rows header) = false ->
  blank trailing = true ->
  split LF (trim (join LF (header :: rows) ++ trailing)) = trimmed_lines header rows.
Proof.
  intros Hh Hr Hbh Hbl Ht.
  rewrite trim_text by assumption.
  apply split_join.
  - unfold trimmed_lines. destruct rows; discriminate.
  - unfold trimmed_lines. destruct rows as [|r rows].
    + constructor; [|constructor]. unfold trim. now apply has_trimEnd, has_trimStart.
    + constructor; [now apply has_trimStart|].
      apply Forall_on_last; [apply has_trimEnd | exact Hr].
Qed.

(** ** Records *)

Lemma lookup_map {A B : Type} (f : A -> B) (l : list A) (i : nat) :
  map f l !! i = option_map f (l !! i).
Proof.
  revert i. induction l as [|x l IH]; intros [|i]; cbn; auto.
Qed.

Lemma obj_set_lookup_ne (o : obj) (h k : string) (v : value) :
  h <> k -> obj_set o h v !! k = o !! k.
Proof.
  intros Hne. unfold obj_set. destruct (String.eqb h "__proto__"); [reflexivity|].
  now apply lookup_insert_ne.
Qed.

Lemma obj_set_lookup_eq (o : obj) (k : string) (v : value) :
  k <> "__proto__" -> obj_set o k v !! k = Some v.
Proof.
  intros Hne. unfold obj_set.
  destruct (String.eqb_spec k "__proto__"); [contradiction|].
  apply lookup_insert_eq.
Qed.

Lemma fill_record_notin (hs : list string) (o : obj) (index : nat)
    (row : list string) (k : string) :
  k ∉ hs -> fill_record o hs index row !! k = o !! k.
Proof.
  revert o index. induction hs as [|h hs IH]; intros o index Hk; [reflexivity|].
  apply not_elem_of_cons in Hk as [Hne Hk]. cbn [fill_record].
  rewrite IH by assumption. apply obj_set_lookup_ne. congruence.
Qed.

(** No header creates an own property named [__proto__]. *)
Lemma fill_record_proto (hs : list string) (o : obj) (index : nat) (row : list string) :
  fill_record o hs index row !! "__proto__" = o !! "__proto__".
Proof.
  revert o index. induction hs as [|h hs IH]; intros o index; [reflexivity|].
  cbn [fill_record]. rewrite IH. unfold obj_set.
  destruct (String.eqb_spec h "__proto__"); [reflexivity|].
  now apply lookup_insert_ne.
Qed.

(** A header name receives the field at the position of its last
    occurrence. *)
Lemma fill_record_last (pre post : list string) (k : string) (o : obj)
    (index : nat) (row : list string) :
  k ∉ post -> k <> "__proto__" ->
  fill_record o (pre ++ k :: post) index row !! k
    = Some (array_get row (index + length pre)).
Proof.
  intros Hpost Hk. revert o index.
  induction pre as [|a pre IH]; intros o index; cbn [app fill_record length].
  - rewrite fill_record_notin by assumption.
    rewrite Nat.add_0_r. now apply obj_set_lookup_eq.
  - rewrite IH. do 2 f_equal. lia.
Qed.

Lemma parseCSV_lines (text line0 : string) (rest : list string) :
  split LF (trim text) = line0 :: rest ->
  parseCSV text = map (fun line => fill_record ∅ (cells line0) 0 (cells line)) rest.
Proof. intros H. unfold parseCSV. now rewrite H. Qed.

(** C7. In every CSV text, every line after the first gives a record,
    whatever its number of fields: nothing is raised.  A header whose
    position is past the last field of the line is mapped to [undefined],
    or, for the name [__proto__], is absent; read from the record it gives
    [undefined]. *)
Theorem parseCSV_short_row (text line0 : string) (rest : list string)
    (i : nat) (line : string) :
  split LF (trim text) = line0 :: rest ->
  rest !! i = Some line ->
  length (parseCSV text) = length rest /\
  exists r : obj,
    parseCSV text !! i = Some r /\
    forall (j : nat) (k : string),
      cells line0 !! j = Some k ->
      length (split "," line) <= j ->
      (r !! k = Some undefined \/ r !! k = None) /\ obj_get r k = undefined.
Proof.
  intros Hlines Hline. rewrite (parseCSV_lines _ _ _ Hlines).
  split; [apply length_map|].
  rewrite lookup_map, Hline. eexists. split; [reflexivity|].
  intros j k Hj Hlen.
  assert (Hor : fill_record ∅ (cells line0) 0 (cells line) !! k = Some undefined \/
                fill_record ∅ (cells line0) 0 (cells line) !! k = None).
  { destruct (String.eqb_spec k "__proto__") as [->|Hk].
    - right. now rewrite fill_record_proto.
    - left.
      assert (Hin : k ∈ cells line0) by (eapply list_elem_of_lookup_2; eauto).
      apply list_elem_of_split_r in Hin as (pre & post & Heq & Hpost).
      rewrite Heq, (fill_record_last pre post k) by assumption.
      f_equal. unfold array_get.
      assert (Hpre : j <= length pre).
      { destruct (le_lt_dec j (length pre)) as [|Hlt]; [assumption|].
        exfalso. apply Hpost.
        rewrite Heq in Hj. rewrite lookup_app_r in Hj by lia.
        destruct (j - length pre) as [|n] eqn:E; [lia|].
        cbn in Hj. eapply list_elem_of_lookup_2; eauto. }
      rewrite (proj2 (lookup_ge_None _ _)); [reflexivity|].
      unfold cells. rewrite length_map. cbn. lia. }
  split; [exact Hor|]. unfold obj_get. destruct Hor as [-> | ->]; reflexivity.
Qed.

(** A line with one field under three headers: the two missing fields are
    [undefined]. *)
Lemma parseCSV_short_row_witness :
  length (parseCSV ("a,b,c" ++ String LF "1")) = 1 /\
  exists r : obj,
    parseCSV ("a,b,c" ++ String LF "1") !! 0 = Some r /\
    obj_get r "b" = undefined /\ obj_get r "c" = undefined.
Proof.
  destruct (parseCSV_short_row ("a,b,c" ++ String LF "1") "a,b,c" ["1"] 0 "1"
              eq_refl eq_refl) as (Hlen & r & Hr & H).
  split; [exact Hlen|]. exists r. split; [exact Hr|]. split.
  - apply (H 1 "b"); [reflexivity | cbn; lia].
  - apply (H 2 "c"); [reflexivity | cbn; lia].
Defined.

Lemma map_cells_on_last (f : list string -> obj) (l : list string) :
  map (fun line => f (cells line)) (on_last trimEnd l)
    = map (fun line => f (cells line)) l.
Proof.
  induction l as [|x l IH]; [reflexivity|].
  destruct l as [|y l].
  - cbn. now rewrite cells_trimEnd.
  - rewrite on_last_cons by discriminate. cbn [map]. now rewrite IH.
Qed.

(** The records of a text given by its lines. *)
Lemma parseCSV_text (header : string) (rows : list string) (trailing : string) :
  has LF header = false ->
  Forall (fun d => has LF d = false) rows ->
  blank header = false ->
  blank (List.last rows header) = false ->
  blank trailing = true ->
  parseCSV (join LF (header :: rows) ++ trailing)
    = map (fun d => fill_record ∅ (cells header) 0 (cells d)) rows.
Proof.
  intros Hh Hr Hbh Hbl Ht.
  unfold parseCSV. rewrite (lines_of_text _ _ _ Hh Hr Hbh Hbl Ht).
  unfold trimmed_lines. destruct rows as [|r rows]; [reflexivity|].
  fold (cells (trimStart header)). rewrite cells_trimStart.
  apply (map_cells_on_last (fill_record ∅ (cells header) 0)).
Qed.

(** C6, as the code behaves.  A text made of a header line that is not
    blank and N data lines the last of which is not blank, followed by any
    white space, gives N records in the order of the lines.  Each record maps
    a trimmed header name other than [__proto__] to the field at the position
    of the last occurrence of that name among the headers (its own position
    when the names are distinct): the trimmed string there, or [undefined]
    when the line is shorter.  The example text gives its two records, with
    or without trailing blank lines. *)
Theorem parseCSV_records (header : string) (rows : list string) (trailing : string) :
  has LF header = false ->
  Forall (fun d => has LF d = false) rows ->
  blank header = false ->
  blank (List.last rows header) = false ->
  blank trailing = true ->
  let text := join LF (header :: rows) ++ trailing in
  parseCSV text = map (fun d => fill_record ∅ (cells header) 0 (cells d)) rows /\
  length (parseCSV text) = length rows /\
  (forall (i : nat) (d : string) (j : nat) (k : string),
     rows !! i = Some d ->
     cells header !! j = Some k ->
     k <> "__proto__" ->
     (forall j', j < j' -> cells header !! j' <> Some k) ->
     exists r : obj,
       parseCSV text !! i = Some r /\
       r !! k = Some (array_get (cells d) j)) /\
  parseCSV csv_example = csv_example_records /\
  parseCSV (csv_example ++ String LF (String LF EmptyString)) = csv_example_records.
Proof.
  intros Hh Hr Hbh Hbl Ht text.
  assert (Hparse :
    parseCSV text = map (fun d => fill_record ∅ (cells header) 0 (cells d)) rows)
    by now apply parseCSV_text.
  split; [exact Hparse|].
  split; [rewrite Hparse; apply length_map|].
  split; [|split; vm_compute; reflexivity].
  intros i d j k Hd Hj Hk Hlast.
  rewrite Hparse, lookup_map, Hd. eexists. split; [reflexivity|].
  rewrite <- (take_drop_middle _ _ _ Hj).
  rewrite (fill_record_last (take j (cells header)) (drop (S j) (cells header)) k).
  - rewrite length_take_le; [reflexivity|].
    apply lookup_lt_Some in Hj. lia.
  - intros Hin. apply list_elem_of_lookup in Hin as [n Hn].
    rewrite lookup_drop in Hn. apply (Hlast (S j + n)); [lia | exact Hn].
  - exact Hk.
Qed.

(** The example text, read through the theorem: its second line gives the
    record that maps b to 2. *)
Lemma parseCSV_records_witness :
  exists r : obj,
    parseCSV (join LF ["a,b"; "1,2"; "3,4"] ++ String LF EmptyString) !! 0 = Some r /\
    r !! "b" = Some (str "2").
Proof.
  destruct (parseCSV_records "a,b" ["1,2"; "3,4"] (String LF EmptyString)
              eq_refl ltac:(repeat constructor) eq_refl eq_refl eq_refl)
    as (_ & _ & H & _).
  destruct (H 0 "1,2" 1 "b" eq_refl eq_refl) as (r & Hr & Hk).
  - discriminate.
  - intros [|[|[|j']]] Hj'; try lia; cbn; discriminate.
  - exists r. split; [exact Hr | exact Hk].
Defined.

(** C6 fails on the code when a header name is repeated: under the header
    line a,a the line 1,2 gives the one record that maps a to 2, although the
    first header a stands at the position of the field 1. *)
Lemma parseCSV_duplicate_header_counterexample :
  cells "a,a" !! 0 = Some "a" /\
  cells "1,2" !! 0 = Some "1" /\
  parseCSV ("a,a" ++ String LF "1,2") = [ <["a" := str "2"]> ∅ ] /\
  (<["a" := str "2"]> ∅ : obj) !! "a" <> Some (str "1").
Proof. repeat split; try (vm_compute; reflexivity). discriminate. Qed.

(** * Binary64 arithmetic on the integers the program meets *)

Module Binary64.

Import Round.
Local Open Scope Z_scope.

(** ** Codes, halving and rounding to nearest even *)

Lemma iter_pos_nat {A : Type} (f : A -> A) (p : positive) (x : A) :
  SpecFloat.iter_pos f p x = Nat.iter (Pos.to_nat p) f x.
Proof.
  revert x. induction p as [p IH|p IH|]; intros x; cbn [SpecFloat.iter_pos].
  - rewrite !IH, Pos2Nat.inj_xI.
    replace (S (2 * Pos.to_nat p))%nat with (Pos.to_nat p + (Pos.to_nat p + 1))%nat by lia.
    rewrite !Nat.iter_add. reflexivity.
  - rewrite !IH, Pos2Nat.inj_xO.
    replace (2 * Pos.to_nat p)%nat with (Pos.to_nat p + Pos.to_nat p)%nat by lia.
    rewrite Nat.iter_add. reflexivity.
  - reflexivity.
Qed.

Lemma code_of_loc (m : Z) (l : location) :
  code (shr_record_of_loc m l) = 4 * m + loc_code l.
Proof.
  destruct l as [|[]]; unfold code;
    cbn [shr_record_of_loc shr_m shr_r shr_s b2z loc_code]; lia.
Qed.

Lemma shr_m_of_loc (m : Z) (l : location) : shr_m (shr_record_of_loc m l) = m.
Proof. destruct l as [|[]]; reflexivity. Qed.

Lemma div4 (m c : Z) : 0 <= c < 4 -> (4 * m + c) / 4 = m /\ (4 * m + c) mod 4 = c.
Proof.
  intros Hc. split.
  - symmetry. apply (Z.div_unique _ 4 m c); lia.
  - symmetry. apply (Z.mod_unique _ 4 m c); lia.
Qed.

Lemma halve_code (m c : Z) :
  0 <= c < 4 -> halve (4 * m + c) = 2 * m + (if c =? 0 then 0 else 1).
Proof.
  intros Hc. unfold halve. destruct (div4 m c Hc) as [-> ->]. reflexivity.
Qed.

Lemma rne_code (m c : Z) :
  0 <= c < 4 ->
  rne (4 * m + c) = m + (if (c =? 3) || ((c =? 2) && Z.odd m) then 1 else 0).
Proof.
  intros Hc. unfold rne. destruct (div4 m c Hc) as [-> ->]. reflexivity.
Qed.

Lemma code_bits (r : shr_record) :
  0 <= 2 * b2z (shr_r r) + b2z (shr_s r) < 4.
Proof. destruct r as [m [] []]; cbn [shr_r shr_s b2z]; lia. Qed.

Lemma halve_record (m : Z) (rb sb : bool) :
  halve (code (Build_shr_record m rb sb)) = 2 * m + b2z (rb || sb).
Proof.
  unfold code. cbn [shr_m shr_r shr_s].
  destruct rb, sb; cbn [b2z orb].
  - replace (4 * m + 2 * 1 + 1) with (4 * m + 3) by lia. now rewrite halve_code by lia.
  - replace (4 * m + 2 * 1 + 0) with (4 * m + 2) by lia. now rewrite halve_code by lia.
  - replace (4 * m + 2 * 0 + 1) with (4 * m + 1) by lia. now rewrite halve_code by lia.
  - replace (4 * m + 2 * 0 + 0) with (4 * m + 0) by lia. now rewrite halve_code by lia.
Qed.

Lemma code_shr_1 (r : shr_record) :
  0 <= shr_m r -> code (shr_1 r) = halve (code r) /\ 0 <= shr_m (shr_1 r).
Proof.
  destruct r as [m rb sb]. cbn [shr_m]. intros Hm. rewrite halve_record.
  destruct m as [|p|p]; [| |now elim Hm].
  - unfold code. cbn [shr_1 shr_m shr_r shr_s]. cbn [b2z]. split; lia.
  - destruct p as [p|p|]; unfold code; cbn [shr_1 shr_m shr_r shr_s];
      [rewrite (Pos2Z.inj_xI p) | rewrite (Pos2Z.inj_xO p) | ];
      cbn [b2z]; split; lia.
Qed.

Lemma code_inj (r1 r2 : shr_record) : code r1 = code r2 -> r1 = r2.
Proof.
  destruct r1 as [m1 [] []], r2 as [m2 [] []]; unfold code;
    cbn [shr_m shr_r shr_s b2z]; intros H; try lia;
    f_equal; lia.
Qed.

Lemma round_code (r : shr_record) :
  round_nearest_even (shr_m r) (loc_of_shr_record r) = rne (code r).
Proof.
  destruct r as [m rb sb]. unfold code. cbn [shr_m shr_r shr_s].
  destruct rb, sb; cbn [b2z loc_of_shr_record round_nearest_even].
  - replace (4 * m + 2 * 1 + 1) with (4 * m + 3) by lia. now rewrite rne_code by lia.
  - replace (4 * m + 2 * 1 + 0) with (4 * m + 2) by lia. rewrite rne_code by lia.
    cbn [Z.eqb Pos.eqb orb andb]. rewrite <- Z.negb_even. destruct (Z.even m); cbn; lia.
  - replace (4 * m + 2 * 0 + 1) with (4 * m + 1) by lia. rewrite rne_code by lia.
    cbn [Z.eqb Pos.eqb orb andb]. lia.
  - replace (4 * m + 2 * 0 + 0) with (4 * m + 0) by lia. rewrite rne_code by lia.
    cbn [Z.eqb Pos.eqb orb andb]. lia.
Qed.

Lemma halve_nonneg (t : Z) : 0 <= t -> 0 <= halve t.
Proof.
  intros H. unfold halve. pose proof (Z.div_pos t 4 H ltac:(lia)).
  destruct (t mod 4 =? 0); lia.
Qed.

Lemma halve_mono (t1 t2 : Z) : t1 <= t2 -> halve t1 <= halve t2.
Proof.
  intros H. unfold halve.
  pose proof (Z.div_mod t1 4 ltac:(lia)). pose proof (Z.div_mod t2 4 ltac:(lia)).
  pose proof (Z.mod_pos_bound t1 4 ltac:(lia)). pose proof (Z.mod_pos_bound t2 4 ltac:(lia)).
  destruct (Z.eqb_spec (t1 mod 4) 0), (Z.eqb_spec (t2 mod 4) 0); lia.
Qed.

Lemma rne_mono (t1 t2 : Z) : t1 <= t2 -> rne t1 <= rne t2.
Proof.
  intros H. unfold rne.
  pose proof (Z.div_mod t1 4 ltac:(lia)). pose proof (Z.div_mod t2 4 ltac:(lia)).
  pose proof (Z.mod_pos_bound t1 4 ltac:(lia)). pose proof (Z.mod_pos_bound t2 4 ltac:(lia)).
  destruct (Z.eqb_spec (t1 mod 4) 3), (Z.eqb_spec (t1 mod 4) 2),
           (Z.eqb_spec (t2 mod 4) 3), (Z.eqb_spec (t2 mod 4) 2);
    cbn [orb andb]; try lia.
  all: repeat match goal with
       | |- context [Z.odd ?x] =>
           let E := fresh in destruct (Z.odd x) eqn:E;
           [apply Zodd_bool_iff, Zodd_ex_iff in E as [? ?]
           |rewrite <- Z.negb_even in E; apply negb_false_iff, Zeven_bool_iff, Zeven_ex_iff in E as [? ?]]
       end; cbn [orb andb]; try lia.
Qed.

Lemma rne_bounds (t : Z) : t / 4 <= rne t <= t / 4 + 1.
Proof. unfold rne. destruct (_ || _); lia. Qed.

Lemma halve_div4 (t : Z) : halve t / 4 = t / 4 / 2.
Proof.
  unfold halve.
  pose proof (Z.div_mod t 4 ltac:(lia)). pose proof (Z.mod_pos_bound t 4 ltac:(lia)).
  pose proof (Z.div_mod (t / 4) 2 ltac:(lia)).
  pose proof (Z.mod_pos_bound (t / 4) 2 ltac:(lia)).
  symmetry.
  destruct (Z.eqb_spec (t mod 4) 0).
  - apply (Z.div_unique _ 4 _ (2 * ((t / 4) mod 2))); lia.
  - apply (Z.div_unique _ 4 _ (2 * ((t / 4) mod 2) + 1)); lia.
Qed.

Lemma iter_halve_nonneg (n : nat) (t : Z) : 0 <= t -> 0 <= Nat.iter n halve t.
Proof.
  intros H. induction n; [assumption|]. rewrite Nat.iter_succ. now apply halve_nonneg.
Qed.

Lemma iter_halve_mono (n : nat) (t1 t2 : Z) :
  t1 <= t2 -> Nat.iter n halve t1 <= Nat.iter n halve t2.
Proof.
  intros H. induction n; [assumption|]. rewrite !Nat.iter_succ. now apply halve_mono.
Qed.

Lemma iter_halve_div4 (n : nat) (t : Z) :
  Nat.iter n halve t / 4 = t / 4 / 2 ^ Z.of_nat n.
Proof.
  induction n as [|n IH]; [change (t / 4 = t / 4 / 1); now rewrite Z.div_1_r|].
  rewrite Nat.iter_succ, halve_div4, IH, Nat2Z.inj_succ, Z.pow_succ_r by lia.
  rewrite Z.div_div by lia. f_equal. lia.
Qed.

Lemma iter_halve_exact (n : nat) (x : Z) :
  Nat.iter n halve (4 * (x * 2 ^ Z.of_nat n)) = 4 * x.
Proof.
  revert x. induction n as [|n IH]; intros x; [change (4 * (x * 1) = 4 * x); lia|].
  rewrite Nat.iter_succ_r.
  replace (4 * (x * 2 ^ Z.of_nat (S n))) with (4 * (2 * (x * 2 ^ Z.of_nat n)) + 0).
  2: { rewrite Nat2Z.inj_succ, Z.pow_succ_r by lia. lia. }
  rewrite halve_code by lia. cbn [Z.eqb].
  replace (2 * (2 * (x * 2 ^ Z.of_nat n)) + 0) with (4 * (x * 2 ^ Z.of_nat n)) by lia.
  apply IH.
Qed.

Lemma iter_shr_code (n : nat) (r : shr_record) :
  0 <= shr_m r ->
  code (Nat.iter n shr_1 r) = Nat.iter n halve (code r) /\
  0 <= shr_m (Nat.iter n shr_1 r).
Proof.
  intros Hm. induction n as [|n [IH1 IH2]]; [split; [reflexivity | exact Hm]|].
  rewrite !Nat.iter_succ. destruct (code_shr_1 _ IH2) as [-> ?]. now rewrite IH1.
Qed.

(** ** Digits *)

Lemma digits2_pos_bounds (p : positive) :
  2 ^ (Z.pos (digits2_pos p) - 1) <= Z.pos p < 2 ^ Z.pos (digits2_pos p).
Proof.
  induction p as [p IH|p IH|]; cbn [digits2_pos].
  - rewrite Pos2Z.inj_succ, (Pos2Z.inj_xI p).
    replace (Z.succ (Z.pos (digits2_pos p)) - 1) with (Z.succ (Z.pos (digits2_pos p) - 1)) by lia.
    rewrite !Z.pow_succ_r by lia. lia.
  - rewrite Pos2Z.inj_succ, (Pos2Z.inj_xO p).
    replace (Z.succ (Z.pos (digits2_pos p)) - 1) with (Z.succ (Z.pos (digits2_pos p) - 1)) by lia.
    rewrite !Z.pow_succ_r by lia. lia.
  - cbn. lia.
Qed.

Lemma Zdigits2_bounds (m : Z) :
  0 < m -> 1 <= Zdigits2 m /\ 2 ^ (Zdigits2 m - 1) <= m < 2 ^ Zdigits2 m.
Proof.
  destruct m as [|p|p]; try lia. intros _. cbn [Zdigits2].
  split; [lia | apply digits2_pos_bounds].
Qed.

Lemma Zdigits2_unique (m k : Z) : 2 ^ (k - 1) <= m < 2 ^ k -> 1 <= k -> Zdigits2 m = k.
Proof.
  intros [Hlo Hhi] Hk.
  assert (Hm : 0 < m) by (pose proof (Z.pow_pos_nonneg 2 (k - 1)); lia).
  destruct (Zdigits2_bounds m Hm) as (Hd & Hdlo & Hdhi).
  destruct (Z.lt_trichotomy (Zdigits2 m) k) as [Hlt|[Heq|Hgt]]; [|assumption|].
  - pose proof (Z.pow_le_mono_r 2 (Zdigits2 m) (k - 1)). lia.
  - pose proof (Z.pow_le_mono_r 2 k (Zdigits2 m - 1)). lia.
Qed.

Lemma Zdigits2_mono (m1 m2 : Z) : 0 < m1 <= m2 -> Zdigits2 m1 <= Zdigits2 m2.
Proof.
  intros [H1 H2].
  destruct (Zdigits2_bounds m1 H1) as (? & ? & ?).
  destruct (Zdigits2_bounds m2 ltac:(lia)) as (? & ? & ?).
  destruct (Z.le_gt_cases (Zdigits2 m1) (Zdigits2 m2)) as [|Hgt]; [assumption|].
  pose proof (Z.pow_le_mono_r 2 (Zdigits2 m2) (Zdigits2 m1 - 1)). lia.
Qed.

Lemma Zdigits2_div (M k : Z) :
  0 <= k -> 1 <= M / 2 ^ k -> Zdigits2 M = Zdigits2 (M / 2 ^ k) + k.
Proof.
  intros Hk Hq.
  assert (Hp : 0 < 2 ^ k) by (apply Z.pow_pos_nonneg; lia).
  destruct (Zdigits2_bounds (M / 2 ^ k) ltac:(lia)) as (Hd & Hlo & Hhi).
  pose proof (Z.div_mod M (2 ^ k) ltac:(lia)) as Hdm.
  pose proof (Z.mod_pos_bound M (2 ^ k) Hp) as Hmb.
  apply Zdigits2_unique; [|lia].
  replace (Zdigits2 (M / 2 ^ k) + k - 1) with ((Zdigits2 (M / 2 ^ k) - 1) + k) by lia.
  rewrite !Z.pow_add_r by lia. nia.
Qed.

Lemma Zdigits2_shift (m k : Z) :
  0 < m -> 0 <= k -> Zdigits2 (m * 2 ^ k) = Zdigits2 m + k.
Proof.
  intros Hm Hk.
  assert (Hp : 0 < 2 ^ k) by (apply Z.pow_pos_nonneg; lia).
  rewrite (Zdigits2_div (m * 2 ^ k) k Hk); rewrite Z.div_mul by lia; [reflexivity | lia].
Qed.

(** ** The rounding of a located mantissa *)

Lemma shr_nat (mrs : shr_record) (e n : Z) :
  0 <= n -> shr mrs e n = (Nat.iter (Z.to_nat n) shr_1 mrs, e + n).
Proof.
  intros Hn. destruct n as [|p|p]; [| |lia]; cbn [shr].
  - now rewrite Z.add_0_r.
  - now rewrite iter_pos_nat.
Qed.

Lemma fexp_normal (k : Z) : -1021 <= k -> fexp prec emax k = k - 53.
Proof. intros H. unfold fexp, SpecFloat.emin, prec, emax. lia. Qed.

Lemma shr_fexp_normal (m e : Z) (l : location) :
  53 <= Zdigits2 m -> -1074 <= e ->
  shr_fexp prec emax m e l
    = (Nat.iter (Z.to_nat (Zdigits2 m - 53)) shr_1 (shr_record_of_loc m l),
       e + (Zdigits2 m - 53)).
Proof.
  intros Hd He. unfold shr_fexp. rewrite fexp_normal by lia.
  replace (Zdigits2 m + e - 53 - e) with (Zdigits2 m - 53) by lia.
  apply shr_nat. lia.
Qed.

Lemma bv_mantissa (t e : Z) :
  4503599627370496 <= t / 4 ->
  let n := Zdigits2 (t / 4) - 53 in
  let m1 := rne (Nat.iter (Z.to_nat n) halve t) in
  0 <= n /\ 4503599627370496 <= m1 <= 9007199254740992.
Proof.
  intros Ht n m1.
  destruct (Zdigits2_bounds (t / 4) ltac:(lia)) as (Hd & Hlo & Hhi).
  assert (Hn : 0 <= n).
  { unfold n. destruct (Z.le_gt_cases 53 (Zdigits2 (t / 4))) as [|Hlt]; [lia|].
    pose proof (Z.pow_le_mono_r 2 (Zdigits2 (t / 4)) 52 ltac:(lia) ltac:(lia)).
    change (2 ^ 52) with 4503599627370496 in *. lia. }
  split; [exact Hn|].
  pose proof (rne_bounds (Nat.iter (Z.to_nat n) halve t)) as Hr.
  rewrite iter_halve_div4, Z2Nat.id in Hr by lia. fold m1 in Hr.
  assert (Hp : 0 < 2 ^ n) by (apply Z.pow_pos_nonneg; lia).
  assert (Hq : 4503599627370496 <= t / 4 / 2 ^ n < 9007199254740992).
  { replace (Zdigits2 (t / 4) - 1) with (52 + n) in Hlo by (unfold n; lia).
    replace (Zdigits2 (t / 4)) with (53 + n) in Hhi by (unfold n; lia).
    rewrite Z.pow_add_r in Hlo, Hhi by lia.
    change (2 ^ 52) with 4503599627370496 in *.
    change (2 ^ 53) with 9007199254740992 in *.
    split.
    - apply Z.div_le_lower_bound; lia.
    - apply Z.div_lt_upper_bound; lia. }
  lia.
Qed.

Lemma pos_of_Z (m : Z) : 0 < m -> m = Z.pos (Z.to_pos m).
Proof. intros H. now rewrite Z2Pos.id. Qed.

Lemma iter_pos_one {A : Type} (f : A -> A) (x : A) : SpecFloat.iter_pos f 1 x = f x.
Proof. reflexivity. Qed.

(** Rounding a located mantissa of at least 53 bits, away from the bounds of
    the exponent range, gives the finite number of [bv]. *)
Lemma binary_round_aux_bv (s : bool) (m e : Z) (l : location) :
  4503599627370496 <= m ->
  -1074 <= e ->
  e + (Zdigits2 m - 53) + 1 <= 971 ->
  binary_round_aux prec emax s m e l
    = S754_finite s (Z.to_pos (fst (bv (4 * m + loc_code l) e)))
        (snd (bv (4 * m + loc_code l) e)).
Proof.
  intros Hm He Hmax.
  assert (Hc : 0 <= loc_code l < 4) by (destruct l as [|[]]; cbn; lia).
  destruct (div4 m (loc_code l) Hc) as [Hdiv _].
  pose proof (bv_mantissa (4 * m + loc_code l) e) as Hbv.
  unfold bv. rewrite Hdiv in *. specialize (Hbv Hm). cbv zeta in Hbv.
  destruct Hbv as [Hn Hm1].
  set (n := Zdigits2 m - 53) in *.
  set (T := Nat.iter (Z.to_nat n) halve (4 * m + loc_code l)) in *.
  unfold binary_round_aux.
  rewrite shr_fexp_normal by (unfold n in Hn; lia). fold n.
  destruct (iter_shr_code (Z.to_nat n) (shr_record_of_loc m l)) as [Hcode Hnn].
  { rewrite shr_m_of_loc. lia. }
  rewrite code_of_loc in Hcode. fold T in Hcode.
  rewrite round_code, Hcode.
  destruct (Z.eqb_spec (rne T) 9007199254740992) as [E|E].
  - rewrite E. cbn [fst snd].
    unfold shr_fexp. change (Zdigits2 9007199254740992) with 54.
    rewrite fexp_normal by lia.
    replace (54 + (e + n) - 53 - (e + n)) with 1 by lia.
    cbn [shr shr_record_of_loc SpecFloat.iter_pos shr_1 shr_m].
    replace (e + n + 1 <=? emax - prec) with true; [reflexivity|].
    symmetry. apply Z.leb_le. unfold emax, prec. lia.
  - cbn [fst snd].
    assert (Hd : Zdigits2 (rne T) = 53).
    { apply Zdigits2_unique; [|lia].
      change (2 ^ (53 - 1)) with 4503599627370496.
      change (2 ^ 53) with 9007199254740992. lia. }
    unfold shr_fexp. rewrite Hd, fexp_normal by lia.
    replace (53 + (e + n) - 53 - (e + n)) with 0 by lia.
    cbn [shr]. rewrite shr_m_of_loc.
    rewrite (pos_of_Z (rne T)) at 1 by lia.
    replace (e + n <=? emax - prec) with true; [reflexivity|].
    symmetry. apply Z.leb_le. unfold emax, prec. lia.
Qed.

Lemma bv_range (t e : Z) :
  4503599627370496 <= t / 4 ->
  4503599627370496 <= fst (bv t e) < 9007199254740992 /\
  e + (Zdigits2 (t / 4) - 53) <= snd (bv t e) <= e + (Zdigits2 (t / 4) - 53) + 1.
Proof.
  intros Ht. destruct (bv_mantissa t e Ht) as [Hn Hm]. unfold bv.
  destruct (Z.eqb_spec (rne (Nat.iter (Z.to_nat (Zdigits2 (t / 4) - 53)) halve t))
              9007199254740992); cbn [fst snd]; lia.
Qed.

(** A finer code of the same value rounds to the same number. *)
Lemma bv_align (t' t e k : Z) :
  0 <= k ->
  Nat.iter (Z.to_nat k) halve t' = t ->
  4503599627370496 <= t / 4 ->
  bv t' (e - k) = bv t e.
Proof.
  intros Hk Hit Ht.
  assert (Hdiv : t / 4 = t' / 4 / 2 ^ k).
  { rewrite <- Hit, iter_halve_div4, Z2Nat.id by lia. reflexivity. }
  assert (Hd : Zdigits2 (t' / 4) = Zdigits2 (t / 4) + k).
  { rewrite Hdiv. apply Zdigits2_div; lia. }
  destruct (bv_mantissa t e Ht) as [Hn _].
  unfold bv. rewrite Hd.
  replace (Z.to_nat (Zdigits2 (t / 4) + k - 53))
    with (Z.to_nat (Zdigits2 (t / 4) - 53) + Z.to_nat k)%nat by lia.
  rewrite Nat.iter_add, Hit.
  replace (e - k + (Zdigits2 (t / 4) + k - 53)) with (e + (Zdigits2 (t / 4) - 53)) by lia.
  reflexivity.
Qed.

(** Rounding is monotone on the codes of one exponent. *)
Lemma bv_mono (t1 t2 e : Z) :
  4503599627370496 <= t1 / 4 -> t1 <= t2 -> lex_le (bv t1 e) (bv t2 e).
Proof.
  intros H1 H12.
  assert (Hdiv : t1 / 4 <= t2 / 4) by (apply Z.div_le_mono; lia).
  assert (H2 : 4503599627370496 <= t2 / 4) by lia.
  destruct (bv_mantissa t1 e H1) as [Hn1 Hm1].
  destruct (bv_mantissa t2 e H2) as [Hn2 Hm2].
  pose proof (Zdigits2_mono (t1 / 4) (t2 / 4) ltac:(lia)) as Hd.
  unfold lex_le, bv.
  set (n1 := Zdigits2 (t1 / 4) - 53) in *.
  set (n2 := Zdigits2 (t2 / 4) - 53) in *.
  destruct (Z.eq_dec n1 n2) as [En|En].
  - rewrite <- En in *.
    pose proof (rne_mono _ _ (iter_halve_mono (Z.to_nat n1) t1 t2 H12)) as Hr.
    destruct (Z.eqb_spec (rne (Nat.iter (Z.to_nat n1) halve t1)) 9007199254740992),
             (Z.eqb_spec (rne (Nat.iter (Z.to_nat n1) halve t2)) 9007199254740992);
      cbn [fst snd]; lia.
  - destruct (Z.eqb_spec (rne (Nat.iter (Z.to_nat n1) halve t1)) 9007199254740992),
             (Z.eqb_spec (rne (Nat.iter (Z.to_nat n2) halve t2)) 9007199254740992);
      cbn [fst snd]; lia.
Qed.

Lemma SFleb_finite (m1 e1 m2 e2 : Z) :
  0 < m1 -> 0 < m2 -> lex_le (m1, e1) (m2, e2) ->
  SFleb (S754_finite false (Z.to_pos m1) e1) (S754_finite false (Z.to_pos m2) e2) = true.
Proof.
  intros H1 H2 [Hlt|[Heq Hle]]; cbn [fst snd] in *; unfold SFleb; cbn [SFcompare].
  - now rewrite (proj2 (Z.compare_lt_iff e1 e2) Hlt).
  - rewrite Heq, Z.compare_refl.
    change (PosDef.Pos.compare_cont Eq (Z.to_pos m1) (Z.to_pos m2))
      with (Pos.compare (Z.to_pos m1) (Z.to_pos m2)).
    destruct (Pos.compare_spec (Z.to_pos m1) (Z.to_pos m2)) as [| |Hgt]; try reflexivity.
    apply Pos2Z.pos_lt_pos in Hgt. rewrite !Z2Pos.id in Hgt by lia. lia.
Qed.

(** ** Conversion of an integer *)

Lemma shl_align_value (m : positive) (e e' : Z) :
  e' <= e -> Z.pos (fst (shl_align m e e')) = Z.pos m * 2 ^ (e - e') /\
             snd (shl_align m e e') = e'.
Proof.
  intros H. unfold shl_align.
  destruct (e' - e) as [|d|d] eqn:E; try lia; cbn [fst snd].
  - replace (e - e') with 0 by lia. split; lia.
  - replace (e - e') with (Z.pos d) by lia. split; [|reflexivity].
    rewrite (Pos.iter_swap_gen _ _ Z.pos xO (Z.mul 2)) by (intros; apply Pos2Z.inj_xO).
    clear. induction d using Pos.peano_ind.
    + cbn. lia.
    + rewrite Pos.iter_succ, IHd, Pos2Z.inj_succ, Z.pow_succ_r by lia. lia.
Qed.

Lemma shl_align_id (m : positive) (e e' : Z) : e <= e' -> shl_align m e e' = (m, e).
Proof.
  intros H. unfold shl_align. destruct (e' - e) eqn:E; try reflexivity. lia.
Qed.

Lemma pow2_52_le (p : positive) (k : Z) :
  53 <= Z.pos (digits2_pos p) + k -> 0 <= k -> 4503599627370496 <= Z.pos p * 2 ^ k.
Proof.
  intros Hd Hk.
  pose proof (digits2_pos_bounds p) as [Hlo _].
  assert (Hp : 0 < 2 ^ (Z.pos (digits2_pos p) - 1)) by (apply Z.pow_pos_nonneg; lia).
  assert (H52 : 2 ^ 52 <= 2 ^ (Z.pos (digits2_pos p) - 1 + k)) by (apply Z.pow_le_mono_r; lia).
  rewrite Z.pow_add_r in H52 by lia.
  change (2 ^ 52) with 4503599627370496 in H52.
  assert (0 < 2 ^ k) by (apply Z.pow_pos_nonneg; lia). nia.
Qed.

Lemma iter_halve_exact_Z (k x : Z) :
  0 <= k -> Nat.iter (Z.to_nat k) halve (4 * (x * 2 ^ k)) = 4 * x.
Proof.
  intros Hk. pose proof (iter_halve_exact (Z.to_nat k) x) as H.
  now rewrite Z2Nat.id in H by lia.
Qed.

(** The rounding of the integer [p * 2 ^ ex], read at a finer exponent. *)
Lemma binary_round_bv (s : bool) (p : positive) (ex j : Z) :
  0 <= j ->
  53 <= Z.pos (digits2_pos p) + j ->
  -1074 <= ex - j ->
  -1021 <= Z.pos (digits2_pos p) + ex <= 1023 ->
  binary_round prec emax s p ex
    = S754_finite s (Z.to_pos (fst (bv (4 * (Z.pos p * 2 ^ j)) (ex - j))))
        (snd (bv (4 * (Z.pos p * 2 ^ j)) (ex - j))).
Proof.
  intros Hj Hdj Hex Hrange.
  set (d := Z.pos (digits2_pos p)) in *.
  unfold binary_round. fold d. rewrite fexp_normal by lia.
  destruct (Z.lt_ge_cases d 53) as [Hlt|Hge].
  - destruct (shl_align_value p ex (d + ex - 53) ltac:(lia)) as [Hv He].
    destruct (shl_align p ex (d + ex - 53)) as [mz ez]. cbn [fst snd] in Hv, He. subst ez.
    replace (ex - (d + ex - 53)) with (53 - d) in Hv by lia.
    pose proof (pow2_52_le p (53 - d) ltac:(fold d; lia) ltac:(lia)) as Hmz.
    rewrite <- Hv in Hmz.
    assert (Hdz : Zdigits2 (Z.pos mz) = 53).
    { rewrite Hv, Zdigits2_shift by lia. cbn [Zdigits2]. fold d. lia. }
    rewrite binary_round_aux_bv by lia.
    cbn [loc_code]. rewrite Z.add_0_r.
    rewrite <- (bv_align (4 * (Z.pos p * 2 ^ j)) (4 * Z.pos mz) (d + ex - 53) (j - (53 - d))).
    + replace (d + ex - 53 - (j - (53 - d))) with (ex - j) by lia. reflexivity.
    + lia.
    + replace (Z.pos p * 2 ^ j) with (Z.pos mz * 2 ^ (j - (53 - d))).
      * apply iter_halve_exact_Z. lia.
      * rewrite Hv, <- Z.mul_assoc, <- Z.pow_add_r by lia. do 2 f_equal. lia.
    + rewrite Z.mul_comm, Z.div_mul by lia. exact Hmz.
  - rewrite shl_align_id by lia.
    pose proof (pow2_52_le p 0 ltac:(fold d; lia) ltac:(lia)) as Hp.
    rewrite Z.pow_0_r, Z.mul_1_r in Hp.
    rewrite binary_round_aux_bv by (cbn [Zdigits2]; fold d; lia).
    cbn [loc_code]. rewrite Z.add_0_r.
    rewrite <- (bv_align (4 * (Z.pos p * 2 ^ j)) (4 * Z.pos p) ex j).
    + reflexivity.
    + lia.
    + now apply iter_halve_exact_Z.
    + rewrite Z.mul_comm, Z.div_mul by lia. exact Hp.
Qed.

Lemma digits2_pos_le (p : positive) (k : Z) :
  Z.pos p < 2 ^ k -> 0 <= k -> Z.pos (digits2_pos p) <= k.
Proof.
  intros Hp Hk. pose proof (digits2_pos_bounds p) as [Hlo _].
  destruct (Z.le_gt_cases (Z.pos (digits2_pos p)) k) as [|Hgt]; [assumption|].
  pose proof (Z.pow_le_mono_r 2 k (Z.pos (digits2_pos p) - 1)). lia.
Qed.

Lemma binary_round_FZ (s : bool) (p : positive) :
  Z.pos p < 2 ^ 62 ->
  binary_round prec emax s p 0
    = S754_finite s (Z.to_pos (fst (FZ (Z.pos p)))) (snd (FZ (Z.pos p))).
Proof.
  intros Hp. pose proof (digits2_pos_le p 62 Hp ltac:(lia)).
  rewrite (binary_round_bv s p 0 52) by lia. reflexivity.
Qed.

Lemma Prim2SF_of_Z (z : Z) :
  Z.abs z < 2 ^ 62 -> Prim2SF (Number.of_Z z) = binary_normalize prec emax z 0 false.
Proof.
  intros Hz. destruct z as [|p|p]; cbn [Number.of_Z].
  - reflexivity.
  - rewrite of_uint63_spec, Uint63.of_Z_spec.
    rewrite Z.mod_small; [reflexivity|].
    change wB with (2 ^ 63). change (2 ^ 62) with 4611686018427387904 in Hz.
    change (2 ^ 63) with 9223372036854775808. lia.
  - rewrite FloatAxioms.opp_spec, of_uint63_spec, Uint63.of_Z_spec.
    rewrite Z.mod_small.
    2: { change wB with (2 ^ 63). change (2 ^ 62) with 4611686018427387904 in Hz.
         change (2 ^ 63) with 9223372036854775808. lia. }
    cbn [binary_normalize]. rewrite !binary_round_FZ by (cbn [Z.abs] in Hz; lia).
    reflexivity.
Qed.

(** The exponent at which an integer is read does not matter. *)
Lemma binary_normalize_shift (z k : Z) :
  Z.abs z < 2 ^ 62 -> 0 <= k <= 52 ->
  binary_normalize prec emax (z * 2 ^ k) (- k) false
    = binary_normalize prec emax z 0 false.
Proof.
  intros Hz Hk.
  assert (Hp : 0 < 2 ^ k) by (apply Z.pow_pos_nonneg; lia).
  destruct z as [|p|p].
  - reflexivity.
  - destruct (Z.pos p * 2 ^ k) as [|q|q] eqn:E; try lia.
    cbn [binary_normalize].
    pose proof (digits2_pos_le p 62 Hz ltac:(lia)) as Hd.
    assert (Hq : Z.pos (digits2_pos q) = Z.pos (digits2_pos p) + k).
    { change (Zdigits2 (Z.pos q) = Zdigits2 (Z.pos p) + k).
      rewrite <- E. apply Zdigits2_shift; lia. }
    rewrite (binary_round_bv false q (- k) (52 - k)) by lia.
    rewrite (binary_round_bv false p 0 52) by lia.
    replace (Z.pos q * 2 ^ (52 - k)) with (Z.pos p * 2 ^ 52).
    2: { rewrite <- E, <- Z.mul_assoc, <- Z.pow_add_r by lia. do 2 f_equal. lia. }
    replace (- k - (52 - k)) with (0 - 52) by lia. reflexivity.
  - destruct (Z.neg p * 2 ^ k) as [|q|q] eqn:E; try lia.
    cbn [binary_normalize].
    cbn [Z.abs] in Hz.
    pose proof (digits2_pos_le p 62 Hz ltac:(lia)) as Hd.
    assert (Eq : Z.pos q = Z.pos p * 2 ^ k) by lia.
    assert (Hq : Z.pos (digits2_pos q) = Z.pos (digits2_pos p) + k).
    { change (Zdigits2 (Z.pos q) = Zdigits2 (Z.pos p) + k).
      rewrite Eq. apply Zdigits2_shift; lia. }
    rewrite (binary_round_bv true q (- k) (52 - k)) by lia.
    rewrite (binary_round_bv true p 0 52) by lia.
    replace (Z.pos q * 2 ^ (52 - k)) with (Z.pos p * 2 ^ 52).
    2: { rewrite Eq, <- Z.mul_assoc, <- Z.pow_add_r by lia. do 2 f_equal. lia. }
    replace (- k - (52 - k)) with (0 - 52) by lia. reflexivity.
Qed.

Lemma Zdigits2_abs (a : Z) : Zdigits2 (Z.abs a) = Zdigits2 a.
Proof. destruct a; reflexivity. Qed.

Lemma Zdigits2_le_53 (d : Z) : 1 <= d < 2 ^ 53 -> 1 <= Zdigits2 d <= 53.
Proof.
  intros Hd. destruct (Zdigits2_bounds d ltac:(lia)) as (H1 & Hlo & _).
  split; [assumption|].
  destruct (Z.le_gt_cases (Zdigits2 d) 53) as [|Hgt]; [assumption|].
  pose proof (Z.pow_le_mono_r 2 53 (Zdigits2 d - 1)). lia.
Qed.

Lemma FZ_exact (d : Z) :
  1 <= d < 2 ^ 53 -> FZ d = (d * 2 ^ (53 - Zdigits2 d), Zdigits2 d - 53).
Proof.
  intros Hd. pose proof (Zdigits2_le_53 d Hd) as Hdd.
  destruct (Zdigits2_bounds d ltac:(lia)) as (_ & Hlo & Hhi).
  unfold FZ, bv.
  rewrite (Z.mul_comm 4), Z.div_mul by lia.
  rewrite Zdigits2_shift by lia.
  replace (d * 2 ^ 52 * 4) with (4 * ((d * 2 ^ (53 - Zdigits2 d)) * 2 ^ (Zdigits2 d + 52 - 53))).
  2: { rewrite <- !Z.mul_assoc, <- Z.pow_add_r by lia.
       replace (53 - Zdigits2 d + (Zdigits2 d + 52 - 53)) with 52 by lia. lia. }
  rewrite iter_halve_exact_Z by lia.
  replace (4 * (d * 2 ^ (53 - Zdigits2 d))) with (4 * (d * 2 ^ (53 - Zdigits2 d)) + 0) by lia.
  rewrite rne_code by lia. cbn [Z.eqb orb andb]. rewrite Z.add_0_r.
  assert (Hx : d * 2 ^ (53 - Zdigits2 d) < 2 ^ 53).
  { replace 53 with (Zdigits2 d + (53 - Zdigits2 d)) at 2 by lia.
    rewrite Z.pow_add_r by lia.
    apply Z.mul_lt_mono_pos_r; [apply Z.pow_pos_nonneg; lia | lia]. }
  change (2 ^ 53) with 9007199254740992 in Hx.
  destruct (Z.eqb_spec (d * 2 ^ (53 - Zdigits2 d)) 9007199254740992); [lia|].
  f_equal. lia.
Qed.

Lemma Prim2SF_of_Z_small (a : Z) : Z.abs a < 2 ^ 53 -> Prim2SF (Number.of_Z a) = SFZ a.
Proof.
  intros Ha. rewrite Prim2SF_of_Z.
  2: { change (2 ^ 53) with 9007199254740992 in Ha.
       change (2 ^ 62) with 4611686018427387904. lia. }
  assert (H62 : forall p, Z.pos p < 2 ^ 53 -> Z.pos p < 2 ^ 62).
  { intros p Hp. change (2 ^ 53) with 9007199254740992 in Hp.
    change (2 ^ 62) with 4611686018427387904. lia. }
  unfold SFZ. destruct a as [|p|p]; cbn [binary_normalize Z.eqb Z.ltb Z.compare Z.abs] in *.
  - reflexivity.
  - rewrite binary_round_FZ, FZ_exact by (try apply H62; lia). reflexivity.
  - rewrite binary_round_FZ, FZ_exact by (try apply H62; lia). reflexivity.
Qed.

Lemma SFsub_finite (sa sb : bool) (ma mb : positive) (ea eb : Z) :
  SFsub prec emax (S754_finite sa ma ea) (S754_finite sb mb eb)
    = binary_normalize prec emax
        (cond_Zopp sa (Z.pos (fst (shl_align ma ea (Z.min ea eb))))
         - cond_Zopp sb (Z.pos (fst (shl_align mb eb (Z.min ea eb)))))
        (Z.min ea eb) false.
Proof. reflexivity. Qed.

Lemma aligned_small (a e : Z) :
  1 <= Z.abs a < 2 ^ 53 -> e <= Zdigits2 a - 53 ->
  cond_Zopp (a <? 0)
    (Z.pos (fst (shl_align (Z.to_pos (Z.abs a * 2 ^ (53 - Zdigits2 a))) (Zdigits2 a - 53) e)))
    = a * 2 ^ (- e).
Proof.
  intros Ha He.
  pose proof (Zdigits2_le_53 (Z.abs a) Ha) as Hd. rewrite Zdigits2_abs in Hd.
  assert (Hp : 0 < 2 ^ (53 - Zdigits2 a)) by (apply Z.pow_pos_nonneg; lia).
  destruct (shl_align_value (Z.to_pos (Z.abs a * 2 ^ (53 - Zdigits2 a)))
              (Zdigits2 a - 53) e He) as [-> _].
  rewrite Z2Pos.id by nia.
  rewrite <- Z.mul_assoc, <- Z.pow_add_r by lia.
  replace (53 - Zdigits2 a + (Zdigits2 a - 53 - e)) with (- e) by lia.
  unfold cond_Zopp. destruct (Z.ltb_spec a 0); [rewrite Z.abs_neq | rewrite Z.abs_eq]; lia.
Qed.

(** Subtracting the Numbers of two integers below [2^53] gives the Number
    of their difference. *)
Theorem sub_of_Z (a b : Z) :
  Z.abs a < 2 ^ 53 -> Z.abs b < 2 ^ 53 ->
  (Number.of_Z a - Number.of_Z b)%float = Number.of_Z (a - b).
Proof.
  intros Ha Hb. apply Prim2SF_inj.
  rewrite FloatAxioms.sub_spec, !Prim2SF_of_Z_small by assumption.
  assert (Hab : Z.abs (a - b) < 2 ^ 62).
  { change (2 ^ 53) with 9007199254740992 in *.
    change (2 ^ 62) with 4611686018427387904. lia. }
  rewrite (Prim2SF_of_Z _ Hab).
  unfold SF64sub, SFZ.
  destruct (Z.eqb_spec a 0) as [->|Ha0], (Z.eqb_spec b 0) as [->|Hb0].
  - reflexivity.
  - cbn [SFsub]. rewrite <- (Prim2SF_of_Z _ Hab), Prim2SF_of_Z_small.
    2: { replace (0 - b) with (- b) by lia. now rewrite Z.abs_opp. }
    unfold SFZ. replace (0 - b) with (- b) by lia.
    destruct (Z.eqb_spec (- b) 0); [lia|].
    rewrite Z.abs_opp, <- (Zdigits2_abs (- b)), Z.abs_opp, Zdigits2_abs.
    f_equal. destruct (Z.ltb_spec b 0), (Z.ltb_spec (- b) 0); cbn; lia || reflexivity.
  - cbn [SFsub]. rewrite Z.sub_0_r, <- (Prim2SF_of_Z a), Prim2SF_of_Z_small; try assumption.
    + unfold SFZ. destruct (Z.eqb_spec a 0); [lia | reflexivity].
    + change (2 ^ 53) with 9007199254740992 in *.
      change (2 ^ 62) with 4611686018427387904. lia.
  - rewrite SFsub_finite.
    pose proof (Zdigits2_le_53 (Z.abs a) ltac:(lia)) as Hda. rewrite Zdigits2_abs in Hda.
    pose proof (Zdigits2_le_53 (Z.abs b) ltac:(lia)) as Hdb. rewrite Zdigits2_abs in Hdb.
    rewrite !aligned_small by lia.
    rewrite <- Z.mul_sub_distr_r.
    set (k := - Z.min (Zdigits2 a - 53) (Zdigits2 b - 53)).
    replace (Z.min (Zdigits2 a - 53) (Zdigits2 b - 53)) with (- k) by (unfold k; lia).
    apply binary_normalize_shift; [exact Hab | unfold k; lia].
Qed.

(** ** Division by the number of milliseconds in an hour *)

Lemma SF_hour : Prim2SF (1000 * 60 * 60) = S754_finite false 7730941132800000 (-31).
Proof. vm_compute. reflexivity. Qed.

Lemma new_location_hour (r : Z) :
  loc_code (new_location 7730941132800000 r)
    = if r =? 0 then 0
      else match 2 * r ?= 7730941132800000 with Lt => 1 | Eq => 2 | Gt => 3 end.
Proof.
  unfold new_location. change (Z.even 7730941132800000) with true.
  unfold new_location_even. destruct (r =? 0); [reflexivity|].
  cbn [loc_code]. destruct (2 * r ?= 7730941132800000); reflexivity.
Qed.

Lemma qcode_spec (A q r : Z) :
  A = q * 7730941132800000 + r -> 0 <= r < 7730941132800000 ->
  qcode A = 4 * q + (if r =? 0 then 0
                     else match 2 * r ?= 7730941132800000 with
                          | Lt => 1 | Eq => 2 | Gt => 3 end).
Proof.
  intros HA Hr. unfold qcode. rewrite new_location_hour.
  replace (A / 7730941132800000) with q
    by (apply (Z.div_unique _ _ q r); lia).
  replace (A mod 7730941132800000) with r
    by (apply (Z.mod_unique _ _ q r); lia).
  reflexivity.
Qed.

Lemma qcode_bits (r : Z) :
  0 <= (if r =? 0 then 0
        else match 2 * r ?= 7730941132800000 with Lt => 1 | Eq => 2 | Gt => 3 end) < 4.
Proof. destruct (r =? 0); [lia|]. destruct (2 * r ?= 7730941132800000); lia. Qed.

Lemma qcode_halve (A : Z) : halve (qcode (2 * A)) = qcode A.
Proof.
  pose proof (Z.div_mod A 7730941132800000 ltac:(lia)) as HA.
  pose proof (Z.mod_pos_bound A 7730941132800000 ltac:(lia)) as Hr.
  set (q := A / 7730941132800000) in *. set (r := A mod 7730941132800000) in *.
  clearbody q r.
  rewrite (qcode_spec A q r) by lia.
  destruct (Z.lt_ge_cases (2 * r) 7730941132800000) as [Hlt|Hge].
  - rewrite (qcode_spec (2 * A) (2 * q) (2 * r)) by lia.
    rewrite halve_code by apply qcode_bits.
    destruct (Z.eqb_spec r 0), (Z.eqb_spec (2 * r) 0); try (exfalso; lia);
    try destruct (Z.compare_spec (2 * r) 7730941132800000);
    try destruct (Z.compare_spec (2 * (2 * r)) 7730941132800000);
    cbn [Z.eqb]; lia.
  - rewrite (qcode_spec (2 * A) (2 * q + 1) (2 * r - 7730941132800000)) by lia.
    rewrite halve_code by apply qcode_bits.
    destruct (Z.eqb_spec r 0), (Z.eqb_spec (2 * r - 7730941132800000) 0);
    try (exfalso; lia);
    try destruct (Z.compare_spec (2 * r) 7730941132800000);
    try destruct (Z.compare_spec (2 * (2 * r - 7730941132800000)) 7730941132800000);
    cbn [Z.eqb]; lia.
Qed.

Lemma qcode_halve_iter (k : nat) (A : Z) :
  Nat.iter k halve (qcode (A * 2 ^ Z.of_nat k)) = qcode A.
Proof.
  revert A. induction k as [|k IH]; intros A.
  - change (qcode (A * 1) = qcode A). now rewrite Z.mul_1_r.
  - rewrite Nat.iter_succ_r, Nat2Z.inj_succ, Z.pow_succ_r by lia.
    replace (A * (2 * 2 ^ Z.of_nat k)) with (2 * (A * 2 ^ Z.of_nat k)) by lia.
    rewrite qcode_halve. apply IH.
Qed.

Lemma qcode_mono (A1 A2 : Z) : A1 <= A2 -> qcode A1 <= qcode A2.
Proof.
  intros H.
  pose proof (Z.div_mod A1 7730941132800000 ltac:(lia)) as H1.
  pose proof (Z.mod_pos_bound A1 7730941132800000 ltac:(lia)) as Hr1.
  pose proof (Z.div_mod A2 7730941132800000 ltac:(lia)) as H2.
  pose proof (Z.mod_pos_bound A2 7730941132800000 ltac:(lia)) as Hr2.
  pose proof (Z.div_le_mono A1 A2 7730941132800000 ltac:(lia) H) as Hq.
  rewrite (qcode_spec A1 _ _ ltac:(rewrite Z.mul_comm; exact H1) Hr1).
  rewrite (qcode_spec A2 _ _ ltac:(rewrite Z.mul_comm; exact H2) Hr2).
  set (q1 := A1 / 7730941132800000) in *. set (r1 := A1 mod 7730941132800000) in *.
  set (q2 := A2 / 7730941132800000) in *. set (r2 := A2 mod 7730941132800000) in *.
  clearbody q1 r1 q2 r2.
  pose proof (qcode_bits r1). pose proof (qcode_bits r2).
  destruct (Z.eq_dec q1 q2) as [E|E]; [|lia].
  assert (r1 <= r2) by lia.
  destruct (Z.eqb_spec r1 0), (Z.eqb_spec r2 0); try (exfalso; lia);
    try destruct (Z.compare_spec (2 * r1) 7730941132800000);
    try destruct (Z.compare_spec (2 * r2) 7730941132800000); lia.
Qed.

Lemma qcode_div4 (A : Z) : qcode A / 4 = A / 7730941132800000.
Proof.
  unfold qcode. rewrite new_location_hour.
  apply (div4 _ _ (qcode_bits _)).
Qed.

Lemma div_eucl_div_mod (a b : Z) : Z.div_eucl a b = (a / b, a mod b).
Proof. unfold Z.div, Z.modulo. now destruct (Z.div_eucl a b). Qed.

Lemma SFdiv_hour (s : bool) (m : positive) (e : Z) :
  4503599627370496 <= Z.pos m < 9007199254740992 ->
  -1000 <= e <= 900 ->
  SFdiv prec emax (S754_finite s m e) (S754_finite false 7730941132800000 (-31))
    = S754_finite s (Z.to_pos (fst (bv (qcode (Z.pos m * 2 ^ 53)) (e - 22))))
        (snd (bv (qcode (Z.pos m * 2 ^ 53)) (e - 22))).
Proof.
  intros Hm He.
  assert (Hd : Zdigits2 (Z.pos m) = 53).
  { apply Zdigits2_unique; [|lia].
    change (2 ^ (53 - 1)) with 4503599627370496.
    change (2 ^ 53) with 9007199254740992. lia. }
  cbn [SFdiv]. unfold SFdiv_core_binary.
  rewrite Hd. change (Zdigits2 7730941132800000) with 53.
  rewrite fexp_normal by lia.
  replace (Z.min (53 + e - (53 + -31) - 53) (e - -31)) with (e - 22) by lia.
  replace (e - -31 - (e - 22)) with 53 by lia.
  rewrite Z.shiftl_mul_pow2 by lia.
  rewrite div_eucl_div_mod.
  set (A := Z.pos m * 2 ^ 53).
  assert (HA : 4503599627370496 * 9007199254740992 <= A < 9007199254740992 * 9007199254740992).
  { unfold A. change (2 ^ 53) with 9007199254740992. lia. }
  assert (Hq : 4503599627370496 <= A / 7730941132800000 < 18014398509481984).
  { split; [apply Z.div_le_lower_bound | apply Z.div_lt_upper_bound]; lia. }
  assert (Hdq : Zdigits2 (A / 7730941132800000) <= 54).
  { destruct (Zdigits2_bounds (A / 7730941132800000) ltac:(lia)) as (_ & Hlo & _).
    destruct (Z.le_gt_cases (Zdigits2 (A / 7730941132800000)) 54) as [|Hgt]; [assumption|].
    pose proof (Z.pow_le_mono_r 2 54 (Zdigits2 (A / 7730941132800000) - 1)).
    change (2 ^ 54) with 18014398509481984 in *. lia. }
  rewrite binary_round_aux_bv by lia.
  rewrite xorb_false_r. reflexivity.
Qed.

Lemma qcode_range (m : Z) :
  4503599627370496 <= m ->
  4503599627370496 <= qcode (m * 2 ^ 53) / 4.
Proof.
  intros Hm. rewrite qcode_div4. change (2 ^ 53) with 9007199254740992.
  apply Z.div_le_lower_bound; lia.
Qed.

Lemma hour_pair_range (m e : Z) :
  4503599627370496 <= m ->
  4503599627370496 <= fst (hour_pair m e) < 9007199254740992.
Proof. intros Hm. apply bv_range. now apply qcode_range. Qed.

(** Division by 3600000 is monotone on the positive normal numbers. *)
Lemma hour_pair_mono (m1 m2 e1 e2 : Z) :
  4503599627370496 <= m1 < 9007199254740992 ->
  4503599627370496 <= m2 < 9007199254740992 ->
  lex_le (m1, e1) (m2, e2) ->
  lex_le (hour_pair m1 e1) (hour_pair m2 e2).
Proof.
  intros Hm1 Hm2 Hle. unfold hour_pair.
  pose proof (qcode_range _ (proj1 Hm1)) as Hq1.
  pose proof (qcode_range _ (proj1 Hm2)) as Hq2.
  assert (Hk : 0 <= e2 - e1) by (destruct Hle as [|[]]; cbn [fst snd] in *; lia).
  assert (Hp : 0 < 2 ^ (e2 - e1)) by (apply Z.pow_pos_nonneg; lia).
  rewrite <- (bv_align (qcode (m2 * 2 ^ 53 * 2 ^ (e2 - e1)))
                (qcode (m2 * 2 ^ 53)) (e2 - 22) (e2 - e1) Hk).
  2: { pose proof (qcode_halve_iter (Z.to_nat (e2 - e1)) (m2 * 2 ^ 53)) as H.
       now rewrite Z2Nat.id in H by lia. }
  2: exact Hq2.
  replace (e2 - 22 - (e2 - e1)) with (e1 - 22) by lia.
  apply bv_mono; [exact Hq1|]. apply qcode_mono.
  change (2 ^ 53) with 9007199254740992.
  destruct Hle as [Hlt|[Heq Hle]]; cbn [fst snd] in *.
  - assert (2 <= 2 ^ (e2 - e1)).
    { change 2 with (2 ^ 1) at 1. apply Z.pow_le_mono_r; lia. }
    nia.
  - replace (e2 - e1) with 0 by lia. rewrite Z.pow_0_r. lia.
Qed.

Lemma SFdiv_hour_pair (s : bool) (m e : Z) :
  4503599627370496 <= m < 9007199254740992 ->
  -1000 <= e <= 900 ->
  SFdiv prec emax (S754_finite s (Z.to_pos m) e)
      (S754_finite false 7730941132800000 (-31))
    = S754_finite s (Z.to_pos (fst (hour_pair m e))) (snd (hour_pair m e)).
Proof.
  intros Hm He. rewrite SFdiv_hour by (rewrite ?Z2Pos.id; lia).
  rewrite Z2Pos.id by lia. reflexivity.
Qed.

(** ** The Number of an integer, divided by 3600000 *)

Lemma FZ_range (d : Z) :
  1 <= d < 2 ^ 62 ->
  4503599627370496 <= fst (FZ d) < 9007199254740992 /\ -52 <= snd (FZ d) <= 11.
Proof.
  intros Hd. unfold FZ.
  assert (Ht : 4 * (d * 2 ^ 52) / 4 = d * 2 ^ 52) by (rewrite Z.mul_comm; apply Z.div_mul; lia).
  assert (H52 : 4503599627370496 <= 4 * (d * 2 ^ 52) / 4).
  { rewrite Ht. change (2 ^ 52) with 4503599627370496. lia. }
  destruct (bv_range _ (-52) H52) as [Hm He]. split; [exact Hm|].
  rewrite Ht, Zdigits2_shift in He by lia.
  destruct (Zdigits2_bounds d ltac:(lia)) as (H1 & Hlo & _).
  assert (Zdigits2 d <= 62).
  { destruct (Z.le_gt_cases (Zdigits2 d) 62) as [|Hgt]; [assumption|].
    pose proof (Z.pow_le_mono_r 2 62 (Zdigits2 d - 1)). lia. }
  lia.
Qed.

Lemma FZ_mono (d1 d2 : Z) : 1 <= d1 <= d2 -> lex_le (FZ d1) (FZ d2).
Proof.
  intros Hd. unfold FZ. apply bv_mono.
  - rewrite Z.mul_comm, Z.div_mul by lia. change (2 ^ 52) with 4503599627370496. lia.
  - change (2 ^ 52) with 4503599627370496. lia.
Qed.

Lemma Prim2SF_of_Z_pos (d : Z) :
  1 <= d < 2 ^ 62 ->
  Prim2SF (Number.of_Z d)
    = S754_finite false (Z.to_pos (fst (FZ d))) (snd (FZ d)).
Proof.
  intros Hd. rewrite Prim2SF_of_Z by lia.
  destruct d as [|p|p]; try lia. cbn [binary_normalize].
  apply binary_round_FZ. lia.
Qed.

Lemma Prim2SF_of_Z_neg (d : Z) :
  1 <= d < 2 ^ 62 ->
  Prim2SF (Number.of_Z (- d))
    = S754_finite true (Z.to_pos (fst (FZ d))) (snd (FZ d)).
Proof.
  intros Hd. rewrite Prim2SF_of_Z by lia.
  destruct d as [|p|p]; try lia. cbn [binary_normalize Z.opp].
  apply binary_round_FZ. lia.
Qed.

Lemma hours_finite (d : Z) :
  1 <= d < 2 ^ 62 ->
  Prim2SF (Number.of_Z d / (1000 * 60 * 60))
    = S754_finite false (Z.to_pos (fst (hours_pair d))) (snd (hours_pair d)) /\
  4503599627370496 <= fst (hours_pair d) < 9007199254740992.
Proof.
  intros Hd. destruct (FZ_range d Hd) as [Hm He].
  rewrite FloatAxioms.div_spec, SF_hour, Prim2SF_of_Z_pos by assumption.
  unfold SF64div, hours_pair. rewrite SFdiv_hour_pair by lia.
  split; [reflexivity | apply hour_pair_range; lia].
Qed.

Lemma hours_pair_mono (d1 d2 : Z) :
  1 <= d1 <= d2 -> d2 < 2 ^ 62 -> lex_le (hours_pair d1) (hours_pair d2).
Proof.
  intros Hd H2. unfold hours_pair.
  destruct (FZ_range d1 ltac:(lia)) as [Hm1 _].
  destruct (FZ_range d2 ltac:(lia)) as [Hm2 _].
  pose proof (FZ_mono d1 d2 Hd) as Hle.
  apply hour_pair_mono; assumption.
Qed.

Lemma hours_of_negative (d : Z) :
  1 <= d < 2 ^ 62 ->
  Prim2SF (Number.of_Z (- d) / (1000 * 60 * 60))
    = S754_finite true (Z.to_pos (fst (hours_pair d))) (snd (hours_pair d)).
Proof.
  intros Hd. destruct (FZ_range d Hd) as [Hm He].
  rewrite FloatAxioms.div_spec, SF_hour, Prim2SF_of_Z_neg by assumption.
  unfold SF64div, hours_pair. now rewrite SFdiv_hour_pair by lia.
Qed.

Lemma hours_of_zero : (Number.of_Z 0 / (1000 * 60 * 60))%float = 0%float.
Proof. vm_compute. reflexivity. Qed.

(** The hours of a span of milliseconds grow with the span. *)
Theorem div_hour_mono (d1 d2 : Z) :
  0 <= d1 <= d2 -> d2 < 2 ^ 62 ->
  (Number.of_Z d1 / (1000 * 60 * 60) <=? Number.of_Z d2 / (1000 * 60 * 60))%float = true.
Proof.
  intros Hd H2. rewrite FloatAxioms.leb_spec.
  destruct (Z.eq_dec d1 0) as [->|H1].
  - rewrite hours_of_zero. change (Prim2SF 0) with (S754_zero false).
    destruct (Z.eq_dec d2 0) as [->|H2'].
    + rewrite hours_of_zero. reflexivity.
    + destruct (hours_finite d2 ltac:(lia)) as [-> _]. reflexivity.
  - destruct (hours_finite d1 ltac:(lia)) as [-> Hr1].
    destruct (hours_finite d2 ltac:(lia)) as [-> Hr2].
    pose proof (hours_pair_mono d1 d2 ltac:(lia) H2) as Hle.
    destruct (hours_pair d1), (hours_pair d2). cbn [fst snd] in *.
    apply SFleb_finite; [lia | lia | exact Hle].
Qed.

(** The hours of a span are negative exactly when the span is. *)
Theorem div_hour_sign (d : Z) :
  Z.abs d < 2 ^ 62 ->
  (Number.of_Z d / (1000 * 60 * 60) <? 0)%float = (d <? 0).
Proof.
  intros Hd. rewrite FloatAxioms.ltb_spec.
  change (Prim2SF 0) with (S754_zero false).
  destruct (Z.ltb_spec d 0) as [Hneg|Hpos].
  - replace d with (- (- d)) by lia.
    rewrite hours_of_negative by lia. reflexivity.
  - destruct (Z.eq_dec d 0) as [->|H0]; [rewrite hours_of_zero; reflexivity|].
    destruct (hours_finite d ltac:(lia)) as [-> _]. reflexivity.
Qed.

End Binary64.

(** ** Expiry classification of a valid date *)

Lemma hour_constant : (1000 * 60 * 60)%float = 3600000%float.
Proof. vm_compute. reflexivity. Qed.

Lemma TimeValue_small (t : Z) : TimeValue t -> (Z.abs t < 2 ^ 53)%Z.
Proof. unfold TimeValue. change (2 ^ 53)%Z with 9007199254740992%Z. lia. Qed.

Lemma TimeValue_span (t now : Z) :
  TimeValue t -> TimeValue now -> (Z.abs (t - now) < 2 ^ 62)%Z.
Proof. unfold TimeValue. change (2 ^ 62)%Z with 4611686018427387904%Z. lia. Qed.

Lemma TimeClip_valid (t : Z) : TimeValue t -> TimeClip t = Number.of_Z t.
Proof.
  unfold TimeValue, TimeClip. intros H.
  now rewrite (proj2 (Z.leb_le _ _) H).
Qed.

Section ValidDate.

Variable Date_parse : string -> option Z.
Variable Number_digits : float -> string.

(** The two strings that mean no expiry are not dates for the host. *)
Hypothesis Date_parse_empty : Date_parse EmptyString = None.
Hypothesis Date_parse_NA : Date_parse "N/A" = None.

Lemma parsed_is_dated (s : string) (t : Z) :
  Date_parse s = Some t -> s <> EmptyString /\ s <> "N/A".
Proof. intros H. split; intros ->; congruence. Qed.

(** The hours between a valid expiry and now are the Number of the exact
    difference in milliseconds, divided by 3600000. *)
Lemma diffHours_exact (now t : Z) (s : string) :
  Date_parse s = Some t -> TimeValue t -> TimeValue now ->
  ((new_Date Date_parse (str s) - Number.of_Z now) / (1000 * 60 * 60))%float
    = (Number.of_Z (t - now) / 3600000)%float.
Proof.
  intros Hs Ht Hnow. cbn [new_Date]. rewrite Hs, (TimeClip_valid t Ht).
  rewrite Binary64.sub_of_Z by now apply TimeValue_small.
  now rewrite hour_constant.
Qed.

(** What [getTimeLeft] does with a valid date: the classification of the
    specification on the hours of the exact difference, whose sign is that
    of the difference. *)
Lemma getTimeLeft_classified (now t : Z) (s : string) :
  Date_parse s = Some t -> TimeValue t -> TimeValue now ->
  let diffHours := ((Number.of_Z t - Number.of_Z now) / 3600000)%float in
  getTimeLeft Date_parse Number_digits now (str s)
    = classify_spec Number_digits diffHours /\
  diffHours = (Number.of_Z (t - now) / (1000 * 60 * 60))%float /\
  (diffHours <? 0)%float = (t <? now)%Z.
Proof.
  intros Hs Ht Hnow diffHours.
  destruct (parsed_is_dated s t Hs) as [Hne Hna].
  assert (Hexact : diffHours = (Number.of_Z (t - now) / (1000 * 60 * 60))%float).
  { unfold diffHours. rewrite hour_constant.
    now rewrite Binary64.sub_of_Z by now apply TimeValue_small. }
  split; [|split; [exact Hexact|]].
  - rewrite (getTimeLeft_dated Date_parse Number_digits now s Hne Hna).
    cbv zeta. unfold classify_spec, diffHours.
    cbn [new_Date]. rewrite Hs, (TimeClip_valid t Ht), hour_constant. reflexivity.
  - rewrite Hexact.
    rewrite Binary64.div_hour_sign by now apply TimeValue_span.
    destruct (Z.ltb_spec (t - now) 0), (Z.ltb_spec t now); (reflexivity || lia).
Qed.

(** The hours left before a valid date. *)
Lemma hoursLeft_valid (now t : Z) (s : string) :
  Date_parse s = Some t -> TimeValue t -> TimeValue now ->
  hoursLeft (getTimeLeft Date_parse Number_digits now (str s))
    = if (t <? now)%Z then 0%float
      else (Number.of_Z (t - now) / (1000 * 60 * 60))%float.
Proof.
  intros Hs Ht Hnow.
  destruct (getTimeLeft_classified now t s Hs Ht Hnow) as (-> & Hx & Hsign).
  unfold classify_spec. rewrite Hsign. destruct (t <? now)%Z; [reflexivity|].
  cbn [hoursLeft]. exact Hx.
Qed.

(** C2. For an expiry string that parses to a valid date and every instant,
    with [diffHours] the difference of the two time values divided by
    3600000, [getTimeLeft] answers Expired with 0 hours left when
    [diffHours < 0] and otherwise the floor of [diffHours] in its text and
    [diffHours] as hours left.  [diffHours] is negative exactly when the
    expiry is before now.  An expiry 50 hours ahead gives exactly 50 hours
    left and the text for 50 hours; an expiry one hour in the past gives
    Expired and 0. *)
Theorem getTimeLeft_valid_date (now t : Z) (s : string) :
  Date_parse s = Some t -> TimeValue t -> TimeValue now ->
  let diffHours := ((Number.of_Z t - Number.of_Z now) / 3600000)%float in
  getTimeLeft Date_parse Number_digits now (str s)
    = classify_spec Number_digits diffHours /\
  (diffHours <? 0)%float = (t <? now)%Z /\
  ((t < now)%Z ->
     getTimeLeft Date_parse Number_digits now (str s)
       = {| text := "Expired"; hoursLeft := 0 |}) /\
  (t = (now + 50 * 3600000)%Z ->
     getTimeLeft Date_parse Number_digits now (str s)
       = {| text := "Expires in 50 hours"; hoursLeft := 50 |}) /\
  (t = (now - 3600000)%Z ->
     getTimeLeft Date_parse Number_digits now (str s)
       = {| text := "Expired"; hoursLeft := 0 |}).
Proof.
  intros Hs Ht Hnow diffHours.
  destruct (getTimeLeft_classified now t s Hs Ht Hnow) as (Hget & Hexact & Hsign).
  fold diffHours in Hget, Hexact, Hsign.
  split; [exact Hget|]. split; [exact Hsign|].
  split; [|split].
  - intros Hlt. rewrite Hget. unfold classify_spec. rewrite Hsign.
    now rewrite (proj2 (Z.ltb_lt _ _) Hlt).
  - intros Heq. rewrite Hget, Hexact.
    replace (t - now)%Z with 180000000%Z by lia.
    vm_compute. reflexivity.
  - intros Heq. rewrite Hget. unfold classify_spec. rewrite Hsign.
    replace (t <? now)%Z with true; [reflexivity|].
    symmetry. apply Z.ltb_lt. lia.
Qed.

(** C8, as the code behaves.  For an expiry that is absent, empty, N/A or a
    string that parses to a valid date, the hours left never grow as the
    clock advances. *)
Theorem getTimeLeft_monotone (now1 now2 : Z) (expiry : value) :
  (expiry = undefined \/ expiry = str EmptyString \/ expiry = str "N/A" \/
   exists (s : string) (t : Z),
     expiry = str s /\ Date_parse s = Some t /\ TimeValue t) ->
  TimeValue now1 -> TimeValue now2 ->
  (now1 <= now2)%Z ->
  (hoursLeft (getTimeLeft Date_parse Number_digits now2 expiry)
     <=? hoursLeft (getTimeLeft Date_parse Number_digits now1 expiry))%float = true.
Proof.
  intros Hexp H1 H2 Hle.
  destruct Hexp as [->|[->|[->|(s & t & -> & Hs & Ht)]]]; try reflexivity.
  rewrite !hoursLeft_valid with (t := t) by assumption.
  pose proof (TimeValue_span t now1 Ht H1) as Hspan.
  destruct (Z.ltb_spec t now2), (Z.ltb_spec t now1); try lia; try reflexivity.
  - rewrite <- Binary64.hours_of_zero.
    apply Binary64.div_hour_mono; lia.
  - apply Binary64.div_hour_mono; lia.
Qed.

End ValidDate.

Lemma sample_TimeValue_now : TimeValue 1741392000000.
Proof. unfold TimeValue. cbn. lia. Qed.

Lemma sample_TimeValue_expiry : TimeValue 1741572000000.
Proof. unfold TimeValue. cbn. lia. Qed.

(** The date the sample host knows, read 50 hours before it: 50 hours. *)
Lemma getTimeLeft_valid_date_witness :
  getTimeLeft sample_Date_parse sample_Number_digits 1741392000000
      (str "2025-03-10T02:00:00Z")
    = {| text := "Expires in 50 hours"; hoursLeft := 50 |}.
Proof.
  apply (getTimeLeft_valid_date sample_Date_parse sample_Number_digits eq_refl eq_refl
           1741392000000 1741572000000 "2025-03-10T02:00:00Z" eq_refl
           sample_TimeValue_expiry sample_TimeValue_now).
  reflexivity.
Defined.

(** Between 50 hours and 49 hours before the sample expiry, the hours left
    do not grow. *)
Lemma getTimeLeft_monotone_witness :
  (hoursLeft (getTimeLeft sample_Date_parse sample_Number_digits 1741395600000
                (str "2025-03-10T02:00:00Z"))
   <=? hoursLeft (getTimeLeft sample_Date_parse sample_Number_digits 1741392000000
                (str "2025-03-10T02:00:00Z")))%float = true.
Proof.
  apply (getTimeLeft_monotone sample_Date_parse sample_Number_digits eq_refl eq_refl
           1741392000000 1741395600000).
  - right. right. right. exists "2025-03-10T02:00:00Z", 1741572000000%Z.
    split; [reflexivity|]. split; [reflexivity | exact sample_TimeValue_expiry].
  - exact sample_TimeValue_now.
  - unfold TimeValue. cbn. lia.
  - lia.
Defined.

(** C8 fails on the code for an expiry string that is not a date: the hours
    left are NaN at both instants, and NaN is not below or equal to NaN. *)
Lemma getTimeLeft_monotone_counterexample :
  (0 <=? 1)%Z = true /\
  (hoursLeft (getTimeLeft sample_Date_parse sample_Number_digits 1 (str "soon"))
   <=? hoursLeft (getTimeLeft sample_Date_parse sample_Number_digits 0 (str "soon")))%float
    = false.
Proof. split; vm_compute; reflexivity. Qed.

(** * Further properties of the code *)

(** ** The CSV parser *)

Lemma trimStart_blank_app (w s : string) :
  blank w = true -> trimStart (w ++ s) = trimStart s.
Proof.
  induction w as [|c w IH]; str_simpl; [reflexivity|].
  destruct (is_ws c); cbn; [exact IH | discriminate].
Qed.

Lemma append_assoc (a b c : string) : (a ++ b) ++ c = a ++ (b ++ c).
Proof.
  induction a as [|x a IH]; rewrite ?append_nil, ?append_cons; [reflexivity|].
  now rewrite IH.
Qed.

Lemma trimStart_not_blank_blank (s : string) :
  blank s = false -> blank (trimStart s) = false.
Proof. intros H. now rewrite blank_trimStart. Qed.

(** X1.  White space around the whole text, blank lines included, does not
    change the records. *)
Theorem parseCSV_surrounding_whitespace (before text after : string) :
  blank before = true -> blank after = true ->
  parseCSV (before ++ text ++ after) = parseCSV text.
Proof.
  intros Hb Ha. unfold parseCSV, trim.
  rewrite (trimStart_blank_app _ _ Hb).
  destruct (blank text) eqn:Ht.
  - rewrite (trimStart_blank text Ht).
    rewrite trimStart_blank; [reflexivity|].
    now rewrite blank_app, Ht, Ha.
  - now rewrite (trimStart_app _ _ Ht), (trimEnd_app_blank _ _ Ha).
Qed.

Lemma parseCSV_surrounding_whitespace_witness :
  parseCSV (String LF " " ++ csv_example ++ String LF (String LF EmptyString))
    = parseCSV csv_example.
Proof.
  apply (parseCSV_surrounding_whitespace (String LF " ") csv_example
           (String LF (String LF EmptyString))); reflexivity.
Defined.

(** X2.  A text with nothing but white space, and a text with a header line
    only, give no record. *)
Theorem parseCSV_no_rows (text : string) :
  (blank text = true -> parseCSV text = []) /\
  (has LF (trim text) = false -> parseCSV text = []).
Proof.
  split; intros H; unfold parseCSV.
  - now rewrite (trim_blank _ H).
  - now rewrite (split_no_sep _ _ H).
Qed.

Lemma fill_record_keys (hs : list string) (o : obj) (index : nat)
    (row : list string) (k : string) :
  is_Some (fill_record o hs index row !! k)
  <-> is_Some (o !! k) \/ (k ∈ hs /\ k <> "__proto__").
Proof.
  revert o index. induction hs as [|h hs IH]; intros o index; cbn [fill_record].
  - split; [auto|]. intros [H|[H _]]; [exact H|]. now apply elem_of_nil in H.
  - rewrite IH, elem_of_cons. unfold obj_set.
    destruct (String.eqb_spec h "__proto__") as [->|Hh].
    + split; intros [H|[H1 H2]]; auto.
      destruct H1 as [->|H1]; [contradiction | auto].
    + destruct (decide (h = k)) as [->|Hne].
      * rewrite lookup_insert_eq. split; [intros _; right; auto|].
        intros _. left. eauto.
      * rewrite lookup_insert_ne by assumption.
        split; intros [H|[H1 H2]]; auto.
        destruct H1 as [->|H1]; [contradiction | auto].
Qed.

(** X3.  The own properties of every record are the trimmed header names,
    [__proto__] excepted, whatever the number of fields of its line. *)
Theorem parseCSV_keys (text line0 : string) (rest : list string) (r : obj) (k : string) :
  split LF (trim text) = line0 :: rest ->
  r ∈ parseCSV text ->
  (is_Some (r !! k) <-> k ∈ cells line0 /\ k <> "__proto__").
Proof.
  intros Hlines Hr. rewrite (parseCSV_lines _ _ _ Hlines) in Hr.
  apply list_elem_of_In, in_map_iff in Hr as (line & <- & _).
  rewrite fill_record_keys, lookup_empty.
  split; [intros [H|H]; [now destruct H | exact H] | auto].
Qed.

Lemma parseCSV_keys_witness :
  is_Some ((<["a" := str "1"]> (<["b" := str "2"]> ∅) : obj) !! "b")
  <-> "b" ∈ cells "a,b" /\ "b" <> "__proto__".
Proof.
  apply (parseCSV_keys csv_example "a,b" ["1,2"; "3,4"]); [reflexivity|].
  replace (parseCSV csv_example) with csv_example_records by (vm_compute; reflexivity).
  left.
Defined.

Lemma has_app (c : ascii) (a b : string) : has c (a ++ b) = has c a || has c b.
Proof.
  induction a as [|x a IH]; str_simpl; [reflexivity|].
  now rewrite IH, orb_assoc.
Qed.

Lemma cells_app_blank (l t : string) : blank t = true -> cells (l ++ t) = cells l.
Proof.
  intros Ht. rewrite <- (cells_trimEnd (l ++ t)), (trimEnd_app_blank _ _ Ht).
  apply cells_trimEnd.
Qed.

Lemma last_map_app (l : list string) (d t : string) :
  List.last (map (fun x => x ++ t) l) (d ++ t) = List.last l d ++ t.
Proof.
  induction l as [|x l IH]; [reflexivity|].
  destruct l as [|y l]; [reflexivity|]. exact IH.
Qed.

Lemma append_empty_r (s : string) : s ++ EmptyString = s.
Proof. induction s as [|c s IH]; str_simpl; [reflexivity | now rewrite IH]. Qed.

(** X4.  Lines that end with a carriage return before the line feed give the
    same records as lines that do not. *)
Theorem parseCSV_crlf (header : string) (rows : list string) :
  has LF header = false ->
  Forall (fun d => has LF d = false) rows ->
  blank header = false ->
  blank (List.last rows header) = false ->
  parseCSV (join LF (map (fun l => l ++ String CR EmptyString) (header :: rows)))
    = parseCSV (join LF (header :: rows)).
Proof.
  intros Hh Hr Hbh Hbl.
  rewrite <- (append_empty_r (join LF (map _ (header :: rows)))).
  rewrite <- (append_empty_r (join LF (header :: rows))).
  cbn [map].
  rewrite !parseCSV_text; try assumption; try reflexivity.
  - rewrite map_map. apply map_ext. intros d.
    now rewrite !cells_app_blank.
  - rewrite has_app, Hh. reflexivity.
  - apply Forall_forall. intros x Hx.
    apply list_elem_of_In, in_map_iff in Hx as (d & <- & Hd).
    apply list_elem_of_In in Hd.
    rewrite has_app. rewrite Forall_forall in Hr. now rewrite (Hr d Hd).
  - rewrite blank_app, Hbh. reflexivity.
  - rewrite last_map_app, blank_app, Hbl. reflexivity.
Qed.

Lemma parseCSV_crlf_witness :
  parseCSV (join LF (map (fun l => l ++ String CR EmptyString) ["a,b"; "1,2"; "3,4"]))
    = parseCSV (join LF ["a,b"; "1,2"; "3,4"]).
Proof.
  apply (parseCSV_crlf "a,b" ["1,2"; "3,4"]);
    [reflexivity | repeat constructor | reflexivity | reflexivity].
Defined.

(** ** Expiry classification *)

(** X5.  Whatever the expiry and the instant, the hours left are never below
    zero. *)
Theorem getTimeLeft_not_negative (Date_parse : string -> option Z)
    (Number_digits : float -> string) (now : Z) (expiry : value) :
  (hoursLeft (getTimeLeft Date_parse Number_digits now expiry) <? 0)%float = false.
Proof.
  unfold getTimeLeft.
  destruct (value_eqb expiry (str "N/A") || negb (truthy expiry)); [reflexivity|].
  destruct ((new_Date Date_parse expiry - Number.of_Z now) / (1000 * 60 * 60) <? 0)%float
    eqn:E; [reflexivity | exact E].
Qed.

(** ** The colour of a rendered item *)

Lemma hours_pair_before_24 :
  Round.hours_pair 86399999 = (6755399362868250, -48)%Z.
Proof. vm_compute. reflexivity. Qed.

Lemma hours_pair_at_24 :
  Round.hours_pair 86400000 = (6755399441055744, -48)%Z.
Proof. vm_compute. reflexivity. Qed.

Lemma hours_pair_before_72 :
  Round.hours_pair 259199999 = (5066549561244935, -46)%Z.
Proof. vm_compute. reflexivity. Qed.

Lemma hours_pair_at_72 :
  Round.hours_pair 259200000 = (5066549580791808, -46)%Z.
Proof. vm_compute. reflexivity. Qed.

(** The colour of a positive span of milliseconds: red below 24 hours,
    yellow below 72 hours, green from there on. *)
Lemma colour_of_span (d : Z) :
  (1 <= d < 2 ^ 62)%Z ->
  getColorFromTime (Number.of_Z d / (1000 * 60 * 60))
    = if (d <? 86400000)%Z then "#e74c3c"
      else if (d <? 259200000)%Z then "#f1c40f"
      else "#2ecc71".
Proof.
  intros Hd.
  destruct (Binary64.hours_finite d Hd) as [Hsf Hrange].
  assert (H24 : (d < 86400000 ->
                 Round.lex_le (Round.hours_pair d) (6755399362868250, -48))%Z).
  { intros H. rewrite <- hours_pair_before_24.
    apply Binary64.hours_pair_mono; [lia | reflexivity]. }
  assert (H24' : (86400000 <= d ->
                 Round.lex_le (6755399441055744, -48) (Round.hours_pair d))%Z).
  { intros H. rewrite <- hours_pair_at_24. apply Binary64.hours_pair_mono; lia. }
  assert (H72 : (d < 259200000 ->
                 Round.lex_le (Round.hours_pair d) (5066549561244935, -46))%Z).
  { intros H. rewrite <- hours_pair_before_72.
    apply Binary64.hours_pair_mono; [lia | reflexivity]. }
  assert (H72' : (259200000 <= d ->
                 Round.lex_le (5066549580791808, -46) (Round.hours_pair d))%Z).
  { intros H. rewrite <- hours_pair_at_72. apply Binary64.hours_pair_mono; lia. }
  unfold getColorFromTime. to_spec. rewrite Hsf. cbn [SFcompare].
  destruct (Round.hours_pair d) as [m e]. unfold Round.lex_le in *.
  cbn [fst snd] in *.
  destruct (Z.ltb_spec d 86400000) as [L1|L1];
    [specialize (H24 L1) | specialize (H24' L1)];
    (destruct (Z.ltb_spec d 259200000) as [L2|L2];
     [specialize (H72 L2) | specialize (H72' L2)]);
    cmp_cases; rewrite ?Z2Pos.id in * by lia; first [reflexivity | exfalso; lia].
Qed.

Section Colour.

Variable Date_parse : string -> option Z.
Variable Number_digits : float -> string.
Hypothesis Date_parse_empty : Date_parse EmptyString = None.
Hypothesis Date_parse_NA : Date_parse "N/A" = None.

(** X6.  The colour [renderItems] gives to an item with coordinates: blue when
    the expiry is absent, empty or N/A; for an expiry that parses to a valid
    date, grey when it is not after now, red when it is less than 24 hours
    (86400000 milliseconds) after now, yellow when less than 72 hours
    (259200000 milliseconds), and green from there on. *)
Theorem renderItem_colour (containerWidth containerHeight : float) (now : Z)
    (item : obj) (cc : string) :
  obj_get item "centre_coordinates" = str cc ->
  exists d : MapItem,
    renderItem Date_parse Number_digits containerWidth containerHeight now item
      = inr d /\
    (obj_get item "Expiry_Date" = undefined \/
     obj_get item "Expiry_Date" = str EmptyString \/
     obj_get item "Expiry_Date" = str "N/A" ->
     style_backgroundColor d = "#3498db") /\
    (forall (s : string) (t : Z),
       obj_get item "Expiry_Date" = str s ->
       Date_parse s = Some t -> TimeValue t -> TimeValue now ->
       style_backgroundColor d
         = if (t <=? now)%Z then "#7f8c8d"
           else if (t - now <? 86400000)%Z then "#e74c3c"
           else if (t - now <? 259200000)%Z then "#f1c40f"
           else "#2ecc71").
Proof.
  intros Hcc. unfold renderItem. rewrite Hcc. eexists. split; [reflexivity|].
  cbn [style_backgroundColor]. split.
  - intros [H | [H | H]]; rewrite H; reflexivity.
  - intros s t -> Hs Ht Hnow.
    rewrite (hoursLeft_valid Date_parse Number_digits Date_parse_empty Date_parse_NA
               now t s Hs Ht Hnow).
    destruct (Z.ltb_spec t now) as [Hlt|Hge].
    + rewrite (proj2 (Z.leb_le t now)) by lia. reflexivity.
    + destruct (Z.leb_spec t now) as [Hle|Hgt].
      * replace (t - now)%Z with 0%Z by lia. reflexivity.
      * apply colour_of_span. pose proof (TimeValue_span t now Ht Hnow). lia.
Qed.

End Colour.

(** Fifty hours before its expiry the sample item is yellow. *)
Lemma renderItem_colour_witness :
  exists d : MapItem,
    renderItem sample_Date_parse sample_Number_digits 400 200 1741392000000
      sample_dated_item = inr d /\
    style_backgroundColor d = "#f1c40f".
Proof.
  destruct (renderItem_colour sample_Date_parse sample_Number_digits eq_refl eq_refl
              400 200 1741392000000 sample_dated_item "50,50" eq_refl)
    as (d & Hd & _ & H).
  exists d. split; [exact Hd|].
  apply (H "2025-03-10T02:00:00Z" 1741572000000%Z eq_refl eq_refl
           sample_TimeValue_expiry sample_TimeValue_now).
Defined.

(** ** Rendering a list of items *)

Section Rendering.

Variable Date_parse : string -> option Z.
Variable Number_digits : float -> string.
Variable containerWidth containerHeight : float.
Variable clock : nat -> Z.

Lemma renderItem_with_coordinates (now : Z) (item : obj) :
  has_coordinates item ->
  exists d : MapItem,
    renderItem Date_parse Number_digits containerWidth containerHeight now item
      = inr d /\ tooltip_item d = item.
Proof.
  intros [cc Hcc]. unfold renderItem. rewrite Hcc. eexists. split; reflexivity.
Qed.

Lemma renderItems_from_all (i : nat) (items : list obj) :
  Forall has_coordinates items ->
  exists divs : list MapItem,
    renderItems_from Date_parse Number_digits containerWidth containerHeight clock i items
      = (divs, None) /\
    map tooltip_item divs = items.
Proof.
  intros H. revert i. induction H as [|item items Hitem _ IH]; intros i.
  - exists []. split; reflexivity.
  - cbn [renderItems_from].
    destruct (renderItem_with_coordinates (clock i) item Hitem) as (d & -> & Hd).
    destruct (IH (S i)) as (ds & -> & Hds).
    exists (d :: ds). split; [reflexivity|]. cbn [map]. now rewrite Hd, Hds.
Qed.

Lemma renderItems_from_stop (i : nat) (before : list obj) (bad : obj) (after : list obj) :
  Forall has_coordinates before ->
  obj_get bad "centre_coordinates" = undefined ->
  exists (divs : list MapItem) (e : exn),
    renderItems_from Date_parse Number_digits containerWidth containerHeight clock i
        (before ++ bad :: after)
      = (divs, Some e) /\
    map tooltip_item divs = before.
Proof.
  intros H Hbad. revert i. induction H as [|item items Hitem _ IH]; intros i.
  - cbn [app renderItems_from]. unfold renderItem. rewrite Hbad.
    eexists [], _. split; reflexivity.
  - cbn [app renderItems_from].
    destruct (renderItem_with_coordinates (clock i) item Hitem) as (d & -> & Hd).
    destruct (IH (S i)) as (ds & e & -> & Hds).
    exists (d :: ds), e. split; [reflexivity|]. cbn [map]. now rewrite Hd, Hds.
Qed.

(** X7.  When every item has a [centre_coordinates] string, [renderItems] throws
    nothing and appends one [div] per item, in the order of the items.  An
    item without [centre_coordinates] stops the rendering with an error: the
    items before it have their [div], it and the items after it have none. *)
Theorem renderItems_one_div_per_item (items before after : list obj) (bad : obj) :
  (Forall has_coordinates items ->
   exists divs : list MapItem,
     renderItems Date_parse Number_digits containerWidth containerHeight clock items
       = (divs, None) /\
     map tooltip_item divs = items /\ length divs = length items) /\
  (Forall has_coordinates before ->
   obj_get bad "centre_coordinates" = undefined ->
   exists (divs : list MapItem) (e : exn),
     renderItems Date_parse Number_digits containerWidth containerHeight clock
         (before ++ bad :: after)
       = (divs, Some e) /\
     map tooltip_item divs = before /\ length divs = length before).
Proof.
  unfold renderItems. split.
  - intros H. destruct (renderItems_from_all 0 items H) as (divs & Hr & Hm).
    exists divs. repeat split; try assumption.
    now rewrite <- Hm, length_map.
  - intros H Hbad.
    destruct (renderItems_from_stop 0 before bad after H Hbad) as (divs & e & Hr & Hm).
    exists divs, e. repeat split; try assumption.
    now rewrite <- Hm, length_map.
Qed.

(** X8.  A CSV file that has data lines but no [centre_coordinates] column:
    once it is loaded the container is empty, whatever it held, and one
    error is logged. *)
Theorem loadCSVData_without_coordinates (container : list MapItem)
    (text line0 line1 : string) (rest : list string) :
  split LF (trim text) = line0 :: line1 :: rest ->
  "centre_coordinates" ∉ cells line0 ->
  loadCSVDataSettled Date_parse Number_digits containerWidth containerHeight clock
      container (Response true text)
    = ([], [ConsoleError "Error loading CSV: "]).
Proof.
  intros Hlines Hcol. unfold loadCSVDataSettled, renderItems.
  rewrite (parseCSV_lines _ _ _ Hlines). cbn [map renderItems_from].
  unfold renderItem at 1. unfold obj_get at 1.
  rewrite fill_record_notin by assumption.
  rewrite lookup_empty. reflexivity.
Qed.

End Rendering.

Lemma renderItems_one_div_per_item_witness :
  exists divs : list MapItem,
    renderItems sample_Date_parse sample_Number_digits 400 200 (fun _ => 0%Z)
        [sample_item; sample_bad_item]
      = (divs, None) /\
    length divs = 2.
Proof.
  destruct (renderItems_one_div_per_item sample_Date_parse sample_Number_digits
              400 200 (fun _ => 0%Z) [sample_item; sample_bad_item] [] [] sample_item)
    as [H _].
  destruct H as (divs & Hr & _ & Hl).
  - repeat constructor; eexists; reflexivity.
  - exists divs. split; [exact Hr | exact Hl].
Defined.

Lemma loadCSVData_without_coordinates_witness :
  loadCSVDataSettled sample_Date_parse sample_Number_digits 400 200 (fun _ => 0%Z)
      [] (Response true csv_example)
    = ([], [ConsoleError "Error loading CSV: "]).
Proof.
  apply (loadCSVData_without_coordinates sample_Date_parse sample_Number_digits
           400 200 (fun _ => 0%Z) [] csv_example "a,b" "1,2" ["3,4"]).
  - reflexivity.
  - intros H. apply list_elem_of_In in H. cbn in H. 
    destruct H as [H|[H|[]]]; discriminate.
Defined.

(** ** The address of the CSV file *)

(** X9.  The CSV file of a map is named after the part of the image name before
    its first full stop, whatever follows; a name without full stop is taken
    whole. *)
Theorem csvUrl_first_stop (base rest : string) :
  has "." base = false ->
  csvUrl (base ++ String "." rest) = "/data/" ++ base ++ ".csv" /\
  csvUrl base = "/data/" ++ base ++ ".csv".
Proof.
  intros H. unfold csvUrl.
  rewrite (split_app_sep _ _ _ H), (split_no_sep _ _ H). split; reflexivity.
Qed.

Lemma csvUrl_first_stop_witness :
  csvUrl ("map1" ++ String "." "backup.png") = "/data/" ++ "map1" ++ ".csv" /\
  csvUrl "map1" = "/data/" ++ "map1" ++ ".csv".
Proof. apply (csvUrl_first_stop "map1" "backup.png"). reflexivity. Defined.

(** ** Loading a well-formed CSV file *)

Section Loading.

Variable Date_parse : string -> option Z.
Variable Number_digits : float -> string.
Variable containerWidth containerHeight : float.
Variable clock : nat -> Z.

(** X10.  A text whose header line has a [centre_coordinates] column, and whose
    data lines all reach that column, is rendered whole: one [div] per data
    line replaces what the container held, and nothing is logged. *)
Theorem loadCSVData_renders_every_line (container : list MapItem)
    (header : string) (rows : list string) (trailing : string)
    (pre post : list string) :
  has LF header = false ->
  Forall (fun d => has LF d = false) rows ->
  blank header = false ->
  blank (List.last rows header) = false ->
  blank trailing = true ->
  cells header = (pre ++ "centre_coordinates" :: post)%list ->
  "centre_coordinates" ∉ post ->
  Forall (fun d => length pre < length (split "," d)) rows ->
  exists divs : list MapItem,
    loadCSVDataSettled Date_parse Number_digits containerWidth containerHeight clock
        container (Response true (join LF (header :: rows) ++ trailing))
      = (divs, []) /\
    length divs = length rows.
Proof.
  intros Hh Hr Hbh Hbl Ht Hcells Hpost Hlen.
  unfold loadCSVDataSettled. rewrite parseCSV_text by assumption.
  set (records := map (fun d => fill_record ∅ (cells header) 0 (cells d)) rows).
  assert (Hall : Forall has_coordinates records).
  { unfold records. apply Forall_forall. intros r Hin.
    apply list_elem_of_In, in_map_iff in Hin as (d & <- & Hd).
    apply list_elem_of_In in Hd.
    rewrite Forall_forall in Hlen. specialize (Hlen d Hd).
    unfold has_coordinates, obj_get.
    rewrite Hcells, fill_record_last by (assumption || discriminate).
    cbn [default]. unfold array_get.
    destruct (cells d !! (0 + length pre)) as [c|] eqn:E; [eauto|].
    apply lookup_ge_None in E. unfold cells in E. rewrite length_map in E. lia. }
  unfold renderItems.
  destruct (renderItems_from_all Date_parse Number_digits containerWidth
              containerHeight clock 0 records Hall) as (divs & -> & Hm).
  exists divs. split; [reflexivity|].
  rewrite <- (length_map tooltip_item), Hm. unfold records. apply length_map.
Qed.

End Loading.

Lemma loadCSVData_renders_every_line_witness :
  exists divs : list MapItem,
    loadCSVDataSettled sample_Date_parse sample_Number_digits 400 200 (fun _ => 0%Z) []
        (Response true
           (join LF ["item_name,centre_coordinates"; "pump, 10"; "valve, 20"]
            ++ String LF EmptyString))
      = (divs, []) /\
    length divs = 2.
Proof.
  apply (loadCSVData_renders_every_line sample_Date_parse sample_Number_digits
           400 200 (fun _ => 0%Z) [] "item_name,centre_coordinates"
           ["pump, 10"; "valve, 20"] (String LF EmptyString) ["item_name"] []);
    try reflexivity.
  - repeat constructor.
  - apply not_elem_of_nil.
  - repeat constructor.
Defined.

(** ** The instant of expiry *)

Section AtExpiry.

Variable Date_parse : string -> option Z.
Variable Number_digits : float -> string.
Hypothesis Date_parse_empty : Date_parse EmptyString = None.
Hypothesis Date_parse_NA : Date_parse "N/A" = None.

(** X11.  At the very instant of a valid expiry, and during the hour before it,
    the label announces 0 hours; at the instant itself the hours left are 0
    and the colour is already the grey of expired items, while during the
    hour before the colour is red. *)
Theorem getTimeLeft_last_hour (now t : Z) (s : string) :
  Date_parse s = Some t -> TimeValue t -> TimeValue now ->
  (now <= t < now + 3600000)%Z ->
  text (getTimeLeft Date_parse Number_digits now (str s)) = "Expires in 0 hours" /\
  getColorFromTime (hoursLeft (getTimeLeft Date_parse Number_digits now (str s)))
    = if (t =? now)%Z then "#7f8c8d" else "#e74c3c".
Proof.
  intros Hs Ht Hnow Hspan.
  pose proof (TimeValue_span t now Ht Hnow) as H62.
  destruct (getTimeLeft_classified Date_parse Number_digits Date_parse_empty
              Date_parse_NA now t s Hs Ht Hnow) as (Hget & Hexact & Hsign).
  cbv zeta in *. rewrite Hget. unfold classify_spec. rewrite Hsign, Hexact.
  replace (t <? now)%Z with false by (symmetry; apply Z.ltb_ge; lia).
  cbn [text hoursLeft].
  destruct (Z.eqb_spec t now) as [->|Hne].
  - rewrite Z.sub_diag. split; vm_compute; reflexivity.
  - split.
    + assert (Hfloor : Number.floor (Number.of_Z (t - now) / (1000 * 60 * 60)) = 0%float).
      { destruct (Binary64.hours_finite (t - now) ltac:(lia)) as [Hsf Hr].
        pose proof (Binary64.hours_pair_mono (t - now) 3599999 ltac:(lia) ltac:(reflexivity))
          as Hle.
        replace (Round.hours_pair 3599999) with (9007196752741199, -53)%Z in Hle
          by (vm_compute; reflexivity).
        unfold Number.floor. rewrite Hsf.
        destruct (Round.hours_pair (t - now)) as [m e].
        unfold Round.lex_le in Hle. cbn [fst snd] in *.
        destruct (Z.leb_spec 0 e) as [|He]; [lia|].
        cbn [cond_Zopp]. rewrite Z2Pos.id by lia.
        rewrite Z.shiftr_div_pow2 by lia.
        rewrite Z.div_small; [reflexivity|].
        split; [lia|].
        assert (2 ^ 53 <= 2 ^ (- e))%Z by (apply Z.pow_le_mono_r; lia).
        change (2 ^ 53)%Z with 9007199254740992%Z in *. lia. }
      rewrite Hfloor. reflexivity.
    + rewrite colour_of_span by lia.
      now rewrite (proj2 (Z.ltb_lt (t - now) 86400000)) by lia.
Qed.

End AtExpiry.

(** Half an hour before the sample expiry: 0 hours announced, and red. *)
Lemma getTimeLeft_last_hour_witness :
  text (getTimeLeft sample_Date_parse sample_Number_digits 1741570200000
          (str "2025-03-10T02:00:00Z")) = "Expires in 0 hours" /\
  getColorFromTime
    (hoursLeft (getTimeLeft sample_Date_parse sample_Number_digits 1741570200000
                  (str "2025-03-10T02:00:00Z")))
    = "#e74c3c".
Proof.
  apply (getTimeLeft_last_hour sample_Date_parse sample_Number_digits eq_refl eq_refl
           1741570200000 1741572000000 "2025-03-10T02:00:00Z" eq_refl
           sample_TimeValue_expiry).
  - unfold TimeValue. cbn. lia.
  - lia.
Defined.

(** ** The log sidebar *)

Lemma forEach_logs_acc (logs : list (option obj)) (acc : list LogEntry) :
  forEach_logs logs acc =
    ((acc ++ map log_entry (leading_logs logs))%list,
     if forallb readable logs
     then None else Some (TypeError "Cannot read properties of null")).
Proof.
  revert acc. induction logs as [|[log|] rest IH]; intros acc; cbn.
  - now rewrite app_nil_r.
  - rewrite IH, <- app_assoc. reflexivity.
  - now rewrite app_nil_r.
Qed.

Lemma leading_logs_map (ls : list obj) : leading_logs (map Some ls) = ls.
Proof.
  induction ls as [|l ls IH]; cbn [map leading_logs]; [reflexivity|].
  rewrite IH. reflexivity.
Qed.

Lemma forallb_readable_map (ls : list obj) :
  forallb readable (map Some ls) = true.
Proof.
  induction ls as [|l ls IH]; cbn [map forallb readable andb]; [reflexivity|].
  exact IH.
Qed.

(** X12.  After a successful answer the sidebar holds one entry per log of
    the answer, in order, up to the first log that is [null], and none of
    the entries it held before; an error is logged exactly when some log is
    [null].  In particular an answer whose logs are all objects is shown in
    full: as many entries as logs. *)
Theorem fetchLogs_entries (container : list LogEntry) (logs : list (option obj)) :
  fetchLogsSettled container (LogsAnswer true (Some logs)) =
    (map log_entry (leading_logs logs),
     if forallb readable logs
     then [] else [ConsoleError "Error fetching logs: "]) /\
  (forall ls : list obj, logs = map Some ls ->
     fetchLogsSettled container (LogsAnswer true (Some logs)) =
       (map log_entry ls, [])).
Proof.
  assert (H : fetchLogsSettled container (LogsAnswer true (Some logs)) =
    (map log_entry (leading_logs logs),
     if forallb readable logs
     then [] else [ConsoleError "Error fetching logs: "])).
  { unfold fetchLogsSettled. rewrite forEach_logs_acc. cbn [app].
    destruct (forallb readable logs); reflexivity. }
  split; [exact H|].
  intros ls ->. rewrite H, leading_logs_map, forallb_readable_map. reflexivity.
Qed.

(** Four logs, the third of them [null]: the first two are shown, a missing
    field reading undefined, and the error is logged. *)
Lemma fetchLogs_entries_witness :
  fetchLogsSettled [] (LogsAnswer true (Some sample_logs)) =
    ([{| entry_className := "log-entry";
         textContent := "[2025-03-09T10:00:00] [placement]" |};
      {| entry_className := "log-entry";
         textContent := "[undefined] [retrieval]" |}],
     [ConsoleError "Error fetching logs: "]).
Proof.
  etransitivity; [apply (proj1 (fetchLogs_entries [] sample_logs))|].
  vm_compute. reflexivity.
Defined.

Lemma fetchLogsSettled_success (c c' : list LogEntry) (r : logs_answer) :
  succeeded r = true ->
  fst (fetchLogsSettled c r) = fst (fetchLogsSettled c' r).
Proof.
  destruct r as [[|] [logs|]|]; cbn; try discriminate; reflexivity.
Qed.

Lemma fetchLogsSettled_no_success (c : list LogEntry) (r : logs_answer) :
  succeeded r = false -> fst (fetchLogsSettled c r) = c.
Proof.
  destruct r as [[|] [logs|]|]; cbn; try discriminate; reflexivity.
Qed.

(** X13.  Refreshing never piles up entries: after any run of settled
    requests the sidebar shows what the last successful answer alone gives
    on an empty sidebar, and while no answer has succeeded it shows what it
    showed at the start. *)
Theorem fetchLogs_shows_last_success (container : list LogEntry)
    (answers : list logs_answer) :
  poll container answers =
    match last_success answers with
    | Some r => fst (fetchLogsSettled [] r)
    | None => container
    end.
Proof.
  unfold poll, last_success.
  induction answers as [|r answers IH] using rev_ind; [reflexivity|].
  rewrite fold_left_app, rev_app_distr. cbn [fold_left rev app List.find].
  destruct (succeeded r) eqn:Hr.
  - apply fetchLogsSettled_success, Hr.
  - rewrite fetchLogsSettled_no_success by exact Hr. exact IH.
Qed.
